(** * Verification of the texture-pack optimizer  (src/api/optimize.js)

    The development embeds the per-entry pipeline of the HTTP handler:
    the file-name classifier, the priority heuristic, the image
    recompressor [optimizeImage], the per-entry loop of [handler] with its
    statistics accumulator, and the computation of the download name.

    Modelling conventions.
    - File names are strings of 8-bit characters.  The [i] flag of a
      regular expression folds the letters A-Z only, as it does in
      JavaScript for the ASCII patterns of this program.  [toLowerCase]
      lowers the letters A-Z only as well: it gives the ASCII content of
      the JavaScript result for every name that holds no character whose
      lower case has an ASCII letter in it (U+212A and U+0130 are the two
      such characters); the development says nothing of names with them.
    - Buffers are lists of bytes; [buffer.length] is [blen].
    - Sizes and counters are integers ([Z]), taken below 2^53 where sums
      of doubles are exact; resolutions are rationals ([Q]) because the low
      tier multiplies by 1.5.  The quotients of the final statistics are
      doubles: [JsNumber.round64] rounds each exact result to the nearest
      double as the division and the multiplication of JavaScript do.  The
      size computation of [optimizeImage] is kept on exact rationals; the
      doubles of JavaScript can give a side one unit lower where the exact
      value is a tie (a 512x93 image at 256).
    - The content of an entry is read when the loop reaches it
      ([file.async]), which may fail; [res.setHeader] may refuse a value.
      Both are part of the model of [handler].
    - The libraries [sharp] and [JSZip] are not part of the repository.
      [sharp] is a parameter of the development (a metadata reader and an
      encoder that may raise); a JSZip instance is its table of named
      objects, a finite map from names to directory or file objects.
    - A JavaScript exception is a value of the sum type [exn + A]; the
      handler threads its mutable [stats] object and the output archive
      through a state-and-exception monad in which the state survives a
      raise, as it does in JavaScript. *)

From Stdlib Require Import ZArith QArith Qabs Qround Qminmax Lia Lqa Bool Ascii String.
From stdpp Require Import gmap strings list fin_maps pretty.

Local Open Scope Z_scope.

(** ** JavaScript strings *)

Module JsString.

(** One character of [String.prototype.toLowerCase], for the letters
    A-Z; the other characters are kept.  This is also the folding of the
    [i] flag of a regular expression whose pattern is in ASCII. *)
Definition lower_char (c : ascii) : ascii :=
  let n := N_of_ascii c in
  if ((65 <=? n) && (n <=? 90))%N then ascii_of_N (n + 32) else c.

Fixpoint toLowerCase (s : string) : string :=
  match s with
  | EmptyString => EmptyString
  | String c s' => String (lower_char c) (toLowerCase s')
  end.

Fixpoint startsWith (p s : string) : bool :=
  match p, s with
  | EmptyString, _ => true
  | String a p', String b s' => if Ascii.eqb a b then startsWith p' s' else false
  | String _ _, EmptyString => false
  end.

(** [s.includes(needle)]: some tail of [s] starts with [needle]. *)
Fixpoint includes (needle s : string) : bool :=
  startsWith needle s ||
  match s with
  | EmptyString => false
  | String _ s' => includes needle s'
  end.

(** [s.endsWith(suffix)]: some tail of [s] is [suffix]. *)
Fixpoint endsWith (suffix s : string) : bool :=
  String.eqb suffix s ||
  match s with
  | EmptyString => false
  | String _ s' => endsWith suffix s'
  end.

Fixpoint drop (n : nat) (s : string) : string :=
  match n, s with
  | O, _ => s
  | S n', String _ s' => drop n' s'
  | S _, EmptyString => EmptyString
  end.

(** [s.replace(pat, rep)] with a string pattern: only the first
    occurrence of [pat] is replaced.  [rep] is inserted as it is (the
    replacement holds no [$]). *)
Fixpoint replace (pat rep s : string) : string :=
  if startsWith pat s then rep +:+ drop (String.length pat) s
  else match s with
       | EmptyString => EmptyString
       | String c s' => String c (replace pat rep s')
       end.

(** [s.replace(/suffix$/i, rep)] for a lower-case literal [suffix]: the
    tail of [s] that spells [suffix] in any case, if there is one, is
    replaced by [rep]. *)
Fixpoint replaceSuffixCI (suffix rep s : string) : string :=
  if String.eqb suffix (toLowerCase s) then rep
  else match s with
       | EmptyString => EmptyString
       | String c s' => String c (replaceSuffixCI suffix rep s')
       end.

End JsString.

(** The double quote character. *)
Definition dquote : ascii := ascii_of_nat 34.

(** ** Regular expressions of the source

    The source only uses three shapes of regular expression over literal
    words: a whole-string match [/^w$/], a suffix match [/(a|b|c)$/] and an
    unanchored match [/(a|b|c)/], with or without the flag [i]. *)

Module Regex.
Import JsString.

Inductive pattern : Type :=
| Whole (w : string)
| Suffix (alts : list string)
| Infix (alts : list string).

Definition test_cs (p : pattern) (s : string) : bool :=
  match p with
  | Whole w => String.eqb w s
  | Suffix alts => existsb (fun a => endsWith a s) alts
  | Infix alts => existsb (fun a => includes a s) alts
  end.

(** [ci] is the flag [i]; the literals of a pattern are lower-case. *)
Definition test (ci : bool) (p : pattern) (s : string) : bool :=
  test_cs p (if ci then toLowerCase s else s).

End Regex.

(** ** Entry classifier *)

Import JsString Regex.

Definition isImageFile (filename : string) : bool :=
  test true (Suffix [".png"; ".jpg"; ".jpeg"]%string) filename.

Definition criticalPatterns : list pattern :=
  [ Whole "pack.mcmeta";
    Whole "pack.png";
    Suffix [".mcmeta"];
    Suffix [".json"];
    Suffix [".bbmodel"];
    Suffix [".txt"];
    Suffix [".properties"];
    Infix ["font/"] ]%string.

Definition isCriticalFile (filename : string) : bool :=
  existsb (fun pattern => test true pattern filename) criticalPatterns.

Definition isSoundFile (filename : string) : bool :=
  test true (Suffix [".ogg"; ".wav"; ".mp3"]%string) filename.

(** The four categories, in the order in which [handler] tests them. *)
Inductive category : Type := Critical | Sound | Image | Other.

Definition classify (filename : string) : category :=
  if isCriticalFile filename then Critical
  else if isSoundFile filename then Sound
  else if isImageFile filename then Image
  else Other.

(** ** Priority heuristic *)

Inductive priority : Type := high | medium | low.

Definition keywordPattern : pattern :=
  Infix [ "ninja"; "samurai"; "warrior"; "mage"; "assassin"; "paladin";
          "reaper"; "dragon"; "awakened" ]%string.

Definition getFolderPriority (filename : string) : priority :=
  let path := toLowerCase filename in
  if includes "modelengine" path then high
  else if test false keywordPattern path then high
  else if includes "items" path || includes "weapons" path then medium
  else if includes "assets/minecraft/textures/" path then low
  else medium.

(** [Math.min] on resolutions. *)
Definition Math_min (a b : Q) : Q := Qmin a b.

(** The tier is always one of the three literals returned by
    [getFolderPriority], so the [default] branch of the [switch] has no
    counterpart. *)
Definition getOptimalResolution (filename : string) (baseResolution : Q)
    (p : priority) : Q :=
  match p with
  | high => Math_min baseResolution 256
  | medium => baseResolution
  | low => Math_min (baseResolution * (3 # 2)) 512
  end.

(** ** Buffers, errors and the image library *)

Definition bytes : Type := list Init.Byte.byte.

Definition blen (b : bytes) : Z := Z.of_nat (length b).

(** A raised [Error], identified by its message. *)
Definition exn : Type := string.

(** What [sharp(...).metadata()] resolves to; a field may be [undefined]. *)
Record metadata : Type := Metadata {
  width : option Z;
  height : option Z
}.

Record png_options : Type := PngOptions {
  png_quality : Z;
  compressionLevel : Z;
  palette : option bool;
  colors : option Z;
  png_effort : option Z;
  adaptiveFiltering : option bool;
  progressive : bool
}.

Record webp_options : Type := WebpOptions {
  webp_quality : Z;
  webp_effort : Z;
  alphaQuality : Z
}.

Inductive encoder : Type :=
| EncPng (o : png_options)
| EncWebp (o : webp_options).

(** A sharp pipeline as [optimizeImage] builds it: the input buffer, the
    optional [resize(newWidth, newHeight, {fit: 'contain',
    withoutEnlargement: true, ...})] and the optional output encoder. *)
Record pipeline : Type := Pipeline {
  source : bytes;
  resize : option (Q * Q);
  output : option encoder
}.

(** The options object received by [optimizeImage].  The handler passes
    all four fields, so the defaults of the destructuring are not used. *)
Record image_options : Type := ImageOptions {
  targetResolution : Q;
  quality : Z;
  format : string;
  aggressiveMode : bool
}.

(** [Math.round]: the nearest integer, halves rounded up. *)
Definition Math_round (x : Q) : Q := inject_Z (Qfloor (x + (1 # 2))).

(** [x >= n] and [x <= n] for a possibly [undefined] number: a comparison
    with [undefined] is false. *)
Definition js_ge (x : option Z) (n : Z) : bool :=
  match x with Some v => n <=? v | None => false end.

Definition js_le (x : option Z) (n : Z) : bool :=
  match x with Some v => v <=? n | None => false end.

(** [!x] for a possibly [undefined] number. *)
Definition js_not (x : option Z) : bool :=
  match x with Some v => v =? 0 | None => true end.

(** The new size of an HD texture (lines 42-57). *)
Definition newSize (targetResolution : Q) (w h : Z) : Q * Q :=
  let aspectRatio := (inject_Z w / inject_Z h)%Q in
  if Qeq_bool aspectRatio 1 then
    let n := Math_min targetResolution (inject_Z w) in (n, n)
  else if h <? w then
    let newWidth := Math_min targetResolution (inject_Z w) in
    (newWidth, Math_round (newWidth / aspectRatio))
  else
    let newHeight := Math_min targetResolution (inject_Z h) in
    (Math_round (newHeight * aspectRatio), newHeight).

(** The compression settings (lines 67-93). *)
Definition compression (o : image_options) : option encoder :=
  if String.eqb (format o) "png" then
    if aggressiveMode o then
      Some (EncPng {| png_quality := quality o - 5; compressionLevel := 9;
                      palette := Some true; colors := Some 128;
                      png_effort := Some 10; adaptiveFiltering := None;
                      progressive := true |})
    else
      Some (EncPng {| png_quality := quality o; compressionLevel := 9;
                      palette := None; colors := None;
                      png_effort := None; adaptiveFiltering := Some true;
                      progressive := true |})
  else if String.eqb (format o) "webp" then
    Some (EncWebp {| webp_quality := quality o; webp_effort := 6;
                     alphaQuality := 95 |})
  else None.

Section Optimizer.

(** The image library.  [sharp_metadata buffer] is
    [await sharp(buffer).metadata()]; [sharp_toBuffer p] builds the
    pipeline [p] and awaits [toBuffer()].  Either may raise; a raise of
    [resize], [png] or [webp] on a bad argument is a raise of
    [sharp_toBuffer]. *)
Variable sharp_metadata : bytes -> exn + metadata.
Variable sharp_toBuffer : pipeline -> exn + bytes.

(** The body of the [try] block of [optimizeImage]. *)
Definition optimizeImage_try (buffer : bytes) (filename : string)
    (options : image_options) : exn + bytes :=
  if blen buffer =? 0 then inl "Empty image buffer"%string
  else
    match sharp_metadata buffer with
    | inl error => inl error
    | inr md =>
        if js_not (width md) || js_not (height md) then inr buffer
        else if js_le (width md) 32 && js_le (height md) 32 then inr buffer
        else
          let size :=
            match width md, height md with
            | Some w, Some h =>
                if (512 <=? w) || (512 <=? h)
                then Some (newSize (targetResolution options) w h)
                else None
            | _, _ => None
            end in
          let p := {| source := buffer; resize := size;
                      output := compression options |} in
          match sharp_toBuffer p with
          | inl error => inl error
          | inr optimized =>
              inr (if blen optimized <? blen buffer then optimized else buffer)
          end
    end.

(** [optimizeImage]: the [catch] clause logs and returns the input. *)
Definition optimizeImage (buffer : bytes) (filename : string)
    (options : image_options) : bytes :=
  match optimizeImage_try buffer filename options with
  | inr result => result
  | inl error => buffer
  end.

End Optimizer.

(** ** Archives and statistics *)

(** An object of a JSZip instance once its content has been read: a
    directory ([dir] is true) or a file with its bytes. *)
Inductive zip_object : Type :=
| Dir
| File (data : bytes).

Definition dir (o : zip_object) : bool :=
  match o with Dir => true | File _ => false end.

(** The entries of an archive with their contents, in iteration order. *)
Definition zip_entries : Type := list (string * zip_object).

(** An object of the loaded archive before its content is read:
    [file.async('nodebuffer')] resolves with the bytes or rejects (a damaged
    entry). *)
Inductive loaded_object : Type :=
| LoadedDir
| LoadedFile (content : exn + bytes).

(** [Object.entries(zip.files)], in iteration order. *)
Definition loaded_entries : Type := list (string * loaded_object).

Record bucket : Type := Bucket { files : Z; saved : Z }.

Record category_stats : Type := Categories {
  modelengine : bucket;
  items : bucket;
  vanilla : bucket;
  sounds : bucket
}.

Record Stats : Type := MkStats {
  totalFiles : Z;
  imageFiles : Z;
  soundFiles : Z;
  optimizedImages : Z;
  skippedFiles : Z;
  criticalFiles : Z;
  hdTexturesFound : Z;
  originalSize : Z;
  optimizedSize : Z;
  categories : category_stats
}.

Definition stats0 : Stats :=
  {| totalFiles := 0; imageFiles := 0; soundFiles := 0; optimizedImages := 0;
     skippedFiles := 0; criticalFiles := 0; hdTexturesFound := 0;
     originalSize := 0; optimizedSize := 0;
     categories := {| modelengine := Bucket 0 0; items := Bucket 0 0;
                      vanilla := Bucket 0 0; sounds := Bucket 0 0 |} |}.

(** Field updates of the [stats] object: [stats.f += n]. *)
Definition add_totalFiles (n : Z) (s : Stats) : Stats :=
  MkStats (totalFiles s + n) (imageFiles s) (soundFiles s)
    (optimizedImages s) (skippedFiles s) (criticalFiles s)
    (hdTexturesFound s) (originalSize s) (optimizedSize s) (categories s).
Definition add_imageFiles (n : Z) (s : Stats) : Stats :=
  MkStats (totalFiles s) (imageFiles s + n) (soundFiles s)
    (optimizedImages s) (skippedFiles s) (criticalFiles s)
    (hdTexturesFound s) (originalSize s) (optimizedSize s) (categories s).
Definition add_soundFiles (n : Z) (s : Stats) : Stats :=
  MkStats (totalFiles s) (imageFiles s) (soundFiles s + n)
    (optimizedImages s) (skippedFiles s) (criticalFiles s)
    (hdTexturesFound s) (originalSize s) (optimizedSize s) (categories s).
Definition add_optimizedImages (n : Z) (s : Stats) : Stats :=
  MkStats (totalFiles s) (imageFiles s) (soundFiles s)
    (optimizedImages s + n) (skippedFiles s) (criticalFiles s)
    (hdTexturesFound s) (originalSize s) (optimizedSize s) (categories s).
Definition add_skippedFiles (n : Z) (s : Stats) : Stats :=
  MkStats (totalFiles s) (imageFiles s) (soundFiles s) (optimizedImages s)
    (skippedFiles s + n) (criticalFiles s) (hdTexturesFound s)
    (originalSize s) (optimizedSize s) (categories s).
Definition add_criticalFiles (n : Z) (s : Stats) : Stats :=
  MkStats (totalFiles s) (imageFiles s) (soundFiles s) (optimizedImages s)
    (skippedFiles s) (criticalFiles s + n) (hdTexturesFound s)
    (originalSize s) (optimizedSize s) (categories s).
Definition add_hdTexturesFound (n : Z) (s : Stats) : Stats :=
  MkStats (totalFiles s) (imageFiles s) (soundFiles s) (optimizedImages s)
    (skippedFiles s) (criticalFiles s) (hdTexturesFound s + n)
    (originalSize s) (optimizedSize s) (categories s).
Definition add_originalSize (n : Z) (s : Stats) : Stats :=
  MkStats (totalFiles s) (imageFiles s) (soundFiles s) (optimizedImages s)
    (skippedFiles s) (criticalFiles s) (hdTexturesFound s)
    (originalSize s + n) (optimizedSize s) (categories s).
Definition add_optimizedSize (n : Z) (s : Stats) : Stats :=
  MkStats (totalFiles s) (imageFiles s) (soundFiles s) (optimizedImages s)
    (skippedFiles s) (criticalFiles s) (hdTexturesFound s) (originalSize s)
    (optimizedSize s + n) (categories s).
Definition on_categories (f : category_stats -> category_stats) (s : Stats) : Stats :=
  MkStats (totalFiles s) (imageFiles s) (soundFiles s) (optimizedImages s)
    (skippedFiles s) (criticalFiles s) (hdTexturesFound s) (originalSize s)
    (optimizedSize s) (f (categories s)).

(** [bucket.files++] and [bucket.saved += n]. *)
Definition count_file (b : bucket) : bucket := Bucket (files b + 1) (saved b).
Definition add_saved (n : Z) (b : bucket) : bucket := Bucket (files b) (saved b + n).

Definition on_modelengine (f : bucket -> bucket) (c : category_stats) : category_stats :=
  Categories (f (modelengine c)) (items c) (vanilla c) (sounds c).
Definition on_items (f : bucket -> bucket) (c : category_stats) : category_stats :=
  Categories (modelengine c) (f (items c)) (vanilla c) (sounds c).
Definition on_vanilla (f : bucket -> bucket) (c : category_stats) : category_stats :=
  Categories (modelengine c) (items c) (f (vanilla c)) (sounds c).
Definition on_sounds (f : bucket -> bucket) (c : category_stats) : category_stats :=
  Categories (modelengine c) (items c) (vanilla c) (f (sounds c)).

(** ** JavaScript numbers that may not be finite *)

Module JsNumber.

Inductive number : Type :=
| Finite (q : Q)
| PosInfinity
| NegInfinity
| NaN.

(** [floor (log2 (a / d))] for positive integers [a] and [d]. *)
Definition exponent (a d : Z) : Z :=
  let e0 := Z.log2 a - Z.log2 d in
  let below := if 0 <=? e0 then a <? d * 2 ^ e0 else a * 2 ^ (- e0) <? d in
  if below then e0 - 1 else e0.

(** The integer nearest to [num / den], a tie going to the even one. *)
Definition nearest_even (num den : Z) : Z :=
  let k := num / den in
  let r := num mod den in
  match 2 * r ?= den with
  | Lt => k
  | Gt => k + 1
  | Eq => if Z.even k then k else k + 1
  end.

(** The double that an arithmetic operation returns for the exact result
    [q]: the nearest multiple of the unit in the last place, which is
    2^(e - 52) for a result in [2^e, 2^(e+1)) and 2^(-1074) below 2^(-1022),
    a tie going to the even multiple; a result that rounds to 2^1024 or more
    is infinite. *)
Definition round64 (q : Q) : number :=
  let n := Qnum q in
  let d := Zpos (Qden q) in
  if n =? 0 then Finite 0
  else
    let a := Z.abs n in
    let p := Z.max (exponent a d) (- 1022) - 52 in
    let k := if 0 <=? p then nearest_even a (d * 2 ^ p)
             else nearest_even (a * 2 ^ (- p)) d in
    if (971 <? p) || ((p =? 971) && (2 ^ 53 <=? k)) then
      if n <? 0 then NegInfinity else PosInfinity
    else
      let m := if n <? 0 then - k else k in
      Finite (Qred (if 0 <=? p then inject_Z (m * 2 ^ p)
                    else m # Z.to_pos (2 ^ (- p)))).

(** [a / b] for two integers (below 2^53, so that they are doubles). *)
Definition div (a b : Z) : number :=
  if b =? 0 then
    if a =? 0 then NaN else if a <? 0 then NegInfinity else PosInfinity
  else round64 (inject_Z a / inject_Z b).

(** [x * k] and [x / k] for a positive constant [k]. *)
Definition scale (x : number) (k : Q) : number :=
  match x with Finite q => round64 (q * k) | other => other end.

End JsNumber.

(** ** The handler's state and its monad *)

Record state : Type := State {
  optimizedZip : gmap string zip_object;
  stats : Stats
}.

(** A computation of the handler: it may change the state and either
    returns a value or raises; the changes made before a raise stay. *)
Definition M (A : Type) : Type := state -> (exn + A) * state.

Definition ret {A : Type} (a : A) : M A := fun s => (inr a, s).

Definition bind {A B : Type} (m : M A) (k : A -> M B) : M B :=
  fun s => match m s with
           | (inr a, s') => k a s'
           | (inl e, s') => (inl e, s')
           end.

(** [await p] for a promise that resolves or rejects. *)
Definition await {A : Type} (r : exn + A) : M A := fun s => (r, s).

(** [try { body } catch (error) { handler }]. *)
Definition try_catch {A : Type} (body : M A) (handler : exn -> M A) : M A :=
  fun s => match body s with
           | (inl e, s') => handler e s'
           | (inr a, s') => (inr a, s')
           end.

Declare Scope js_scope.
Delimit Scope js_scope with js.
Notation "x <- c1 ;; c2" := (bind c1 (fun x => c2))
  (at level 100, c1 at next level, c2 at level 200, right associativity) : js_scope.
Notation "c1 ;; c2" := (bind c1 (fun _ => c2))
  (at level 100, c2 at level 200, right associativity) : js_scope.

Definition update_stats (f : Stats -> Stats) : M unit :=
  fun s => (inr tt, {| optimizedZip := optimizedZip s; stats := f (stats s) |}).

(** [optimizedZip.file(name, data)]: the object is stored under [name] and
    replaces an earlier object of that name.  (JSZip also creates the
    missing parent folders of [name]; they only add directory objects
    under names that are not taken, and are not represented.) *)
Definition zip_file (name : string) (data : bytes) : M unit :=
  fun s => (inr tt, {| optimizedZip := <[name := File data]> (optimizedZip s);
                       stats := stats s |}).

Definition forceTrailingSlash (name : string) : string :=
  if endsWith "/" name then name else name +:+ "/".

(** [optimizedZip.folder(name)]: a directory object is created under the
    name, with its final slash, unless the name is taken. *)
Definition zip_folder (name : string) : M unit :=
  fun s =>
    let name := forceTrailingSlash name in
    (inr tt, {| optimizedZip := match optimizedZip s !! name with
                                | Some _ => optimizedZip s
                                | None => <[name := Dir]> (optimizedZip s)
                                end;
                stats := stats s |}).

(** The form fields after parsing and defaulting (lines 196-200):
    [parseInt] of [resolution] and [quality], [format], whether
    [aggressive] is the string "true", and [deviceMode].  The two numeric
    fields are integers, as the interface requires; [format] and
    [deviceMode] are arbitrary strings, as in the source. *)
Record form_fields : Type := Fields {
  field_resolution : Z;
  field_quality : Z;
  field_format : string;
  field_aggressive : bool;
  field_deviceMode : string
}.

Definition default_fields : form_fields :=
  {| field_resolution := 256; field_quality := 85; field_format := "png";
     field_aggressive := false; field_deviceMode := "potato" |}.

(** The statistics computed after serialization (lines 322-332). *)
Record final_stats : Type := FinalStats {
  loop_stats : Stats;
  finalZipSize : Z;
  savedBytes : Z;
  savedPercent : string;
  finalSizeMB : string;
  targetAchieved : bool
}.

Inductive response : Type :=
| Ok200 (contentDisposition : string) (xStats : final_stats) (body : bytes)
| Error500 (error : exn).

Section Handler.

Variable sharp_metadata : bytes -> exn + metadata.
Variable sharp_toBuffer : pipeline -> exn + bytes.

(** [optimizedZip.generateAsync(...)] and [Number.prototype.toFixed(2)]. *)
Variable generateAsync : gmap string zip_object -> exn + bytes.
Variable toFixed2 : JsNumber.number -> string.

(** [res.setHeader(name, value)], which raises on a value that holds a
    character not allowed in a header. *)
Variable setHeader : string -> string -> exn + unit.

Variable fields : form_fields.

Local Open Scope js_scope.

(** The options object of the call of [optimizeImage] (lines 272-277). *)
Definition smartSettings (optimalRes : Q) : image_options :=
  let potato := String.eqb (field_deviceMode fields) "potato" in
  {| targetResolution := if potato then Math_min optimalRes 256 else optimalRes;
     quality := if potato then field_quality fields - 10 else field_quality fields;
     format := field_format fields;
     aggressiveMode := field_aggressive fields || potato |}.

(** Lines 279-282. *)
Definition newFilename (filename : string) : string :=
  if negb (String.eqb (field_format fields) "png") && endsWith ".png" filename
  then replaceSuffixCI ".png" ("." +:+ field_format fields) filename
  else filename.

(** Lines 291-300: the bucket that receives the savings of an image. *)
Definition categorize (filename : string) (saved : Z)
    (c : category_stats) : category_stats :=
  if includes "modelengine" filename then
    on_modelengine (fun b => add_saved saved (count_file b)) c
  else if includes "items" filename || includes "weapons" filename then
    on_items (fun b => add_saved saved (count_file b)) c
  else if includes "assets/minecraft" filename then
    on_vanilla (fun b => add_saved saved (count_file b)) c
  else c.

(** The resolution passed on for an image, before the device mode. *)
Definition optimalResOf (filename : string) : Q :=
  getOptimalResolution filename (inject_Z (field_resolution fields))
    (getFolderPriority filename).

(** The bytes that a readable image is replaced by. *)
Definition optimizedOf (filename : string) (fileData : bytes) : bytes :=
  optimizeImage sharp_metadata sharp_toBuffer fileData filename
    (smartSettings (optimalResOf filename)).

(** The body of the per-entry [try] block (lines 261-300). *)
Definition imageBlock (filename : string) (fileData : bytes)
    (originalSize : Z) : M unit :=
  let priority := getFolderPriority filename in
  let optimalRes :=
    getOptimalResolution filename (inject_Z (field_resolution fields)) priority in
  md <- await (sharp_metadata fileData) ;;
  (if js_ge (width md) 512 || js_ge (height md) 512
   then update_stats (add_hdTexturesFound 1) else ret tt) ;;
  let optimized :=
    optimizeImage sharp_metadata sharp_toBuffer fileData filename
      (smartSettings optimalRes) in
  let saved := originalSize - blen optimized in
  zip_file (newFilename filename) optimized ;;
  update_stats (add_optimizedSize (blen optimized)) ;;
  update_stats (add_optimizedImages 1) ;;
  update_stats (on_categories (categorize filename saved)).

(** The [catch] clause of the per-entry block (lines 302-307). *)
Definition imageFallback (filename : string) (fileData : bytes)
    (originalSize : Z) (error : exn) : M unit :=
  zip_file filename fileData ;;
  update_stats (add_optimizedSize originalSize) ;;
  update_stats (add_skippedFiles 1).

(** The body of the loop over the entries (lines 229-312). *)
Definition processEntry (entry : string * zip_object) : M unit :=
  let '(filename, file) := entry in
  match file with
  | Dir => zip_folder filename
  | File fileData =>
      update_stats (add_totalFiles 1) ;;
      let originalSize := blen fileData in
      update_stats (add_originalSize originalSize) ;;
      if isCriticalFile filename then
        zip_file filename fileData ;;
        update_stats (add_optimizedSize originalSize) ;;
        update_stats (add_criticalFiles 1)
      else if isSoundFile filename then
        zip_file filename fileData ;;
        update_stats (add_optimizedSize originalSize) ;;
        update_stats (add_soundFiles 1) ;;
        update_stats (on_categories (on_sounds count_file))
      else if isImageFile filename then
        update_stats (add_imageFiles 1) ;;
        try_catch (imageBlock filename fileData originalSize)
                  (imageFallback filename fileData originalSize)
      else
        zip_file filename fileData ;;
        update_stats (add_optimizedSize originalSize)
  end.

(** The branch of the loop body that a file of category [c] takes. *)
Definition handleFile (c : category) (filename : string) (fileData : bytes) : M unit :=
  let originalSize := blen fileData in
  match c with
  | Critical =>
      zip_file filename fileData ;;
      update_stats (add_optimizedSize originalSize) ;;
      update_stats (add_criticalFiles 1)
  | Sound =>
      zip_file filename fileData ;;
      update_stats (add_optimizedSize originalSize) ;;
      update_stats (add_soundFiles 1) ;;
      update_stats (on_categories (on_sounds count_file))
  | Image =>
      update_stats (add_imageFiles 1) ;;
      try_catch (imageBlock filename fileData originalSize)
                (imageFallback filename fileData originalSize)
  | Other =>
      zip_file filename fileData ;;
      update_stats (add_optimizedSize originalSize)
  end.

(** The name and the bytes under which a file entry is written. *)
Definition entryOutput (filename : string) (fileData : bytes) : string * bytes :=
  match classify filename, sharp_metadata fileData with
  | Image, inr _ => (newFilename filename, optimizedOf filename fileData)
  | _, _ => (filename, fileData)
  end.

(** [for (const [filename, file] of Object.entries(zip.files))]. *)
Fixpoint processEntries (entries : zip_entries) : M unit :=
  match entries with
  | [] => ret tt
  | entry :: rest => processEntry entry ;; processEntries rest
  end.

Definition state0 : state := {| optimizedZip := ∅; stats := stats0 |}.

(** Lines 322-332. *)
Definition finalStats (st : Stats) (finalSize : Z) : final_stats :=
  let savedBytes := originalSize st - finalSize in
  {| loop_stats := st;
     finalZipSize := finalSize;
     savedBytes := savedBytes;
     savedPercent :=
       toFixed2 (JsNumber.scale (JsNumber.div savedBytes (originalSize st)) 100);
     finalSizeMB :=
       toFixed2 (JsNumber.scale
                   (JsNumber.scale (JsNumber.Finite (inject_Z finalSize)) (1 # 1024))
                   (1 # 1024));
     targetAchieved := finalSize <=? 13 * 1024 * 1024 |}.

(** Lines 335-336.  [originalFilename] may be missing or empty. *)
Definition outputName (originalFilename : option string)
    (finalSizeMB : string) : string :=
  let originalName :=
    match originalFilename with
    | Some name => if String.eqb name EmptyString then "pack.zip"%string else name
    | None => "pack.zip"%string
    end in
  replace ".zip" ("-optimized-" +:+ finalSizeMB +:+ "mb.zip") originalName.

Definition contentDisposition (name : string) : string :=
  "attachment; filename=" +:+ String dquote name +:+ String dquote EmptyString.

(** The loop body from the loaded object on: the content of a file is
    read after [totalFiles] is counted (lines 234-235), outside the
    per-entry [try], so that a rejection leaves the loop. *)
Definition processLoadedEntry (entry : string * loaded_object) : M unit :=
  let '(filename, file) := entry in
  match file with
  | LoadedDir => processEntry (filename, Dir)
  | LoadedFile (inr fileData) => processEntry (filename, File fileData)
  | LoadedFile (inl error) =>
      update_stats (add_totalFiles 1) ;; await (inl error)
  end.

Fixpoint processLoadedEntries (entries : loaded_entries) : M unit :=
  match entries with
  | [] => ret tt
  | entry :: rest => processLoadedEntry entry ;; processLoadedEntries rest
  end.

(** The handler from the loaded archive on (lines 207-343), with the
    outer [catch] (lines 345-373) reduced to the error it receives.  Of the
    three headers only [Content-Disposition] carries text of the request;
    [Content-Type] and [X-Stats] carry fixed text, digits and the
    renderings of numbers. *)
Definition handler (originalFilename : option string)
    (zip_files : loaded_entries) : response :=
  match processLoadedEntries zip_files state0 with
  | (inl error, _) => Error500 error
  | (inr _, s) =>
      match generateAsync (optimizedZip s) with
      | inl error => Error500 error
      | inr optimizedBuffer =>
          let st := finalStats (stats s) (blen optimizedBuffer) in
          let disposition :=
            contentDisposition (outputName originalFilename (finalSizeMB st)) in
          match setHeader "Content-Disposition" disposition with
          | inl error => Error500 error
          | inr _ => Ok200 disposition st optimizedBuffer
          end
      end
  end.

End Handler.

(** ** Notions used by the statements *)

(** The byte lengths of the file entries of an archive, in order. *)
Definition fileSizes (entries : zip_entries) : list Z :=
  flat_map (fun entry : string * zip_object =>
              match snd entry with
              | File fileData => [blen fileData]
              | Dir => []
              end) entries.

(** The byte lengths of the entries as the loop writes them. *)
Definition writtenSizes (sharp_metadata : bytes -> exn + metadata)
    (sharp_toBuffer : pipeline -> exn + bytes) (fields : form_fields)
    (entries : zip_entries) : list Z :=
  flat_map (fun entry : string * zip_object =>
              match snd entry with
              | File fileData =>
                  [blen (snd (entryOutput sharp_metadata sharp_toBuffer fields
                                (fst entry) fileData))]
              | Dir => []
              end) entries.

Definition total (sizes : list Z) : Z := fold_right Z.add 0 sizes.

(** The name under which the loop stores an entry. *)
Definition writtenName (sharp_metadata : bytes -> exn + metadata)
    (sharp_toBuffer : pipeline -> exn + bytes) (fields : form_fields)
    (entry : string * zip_object) : string :=
  match snd entry with
  | Dir => forceTrailingSlash (fst entry)
  | File fileData =>
      fst (entryOutput sharp_metadata sharp_toBuffer fields (fst entry) fileData)
  end.

(** The entries of an archive as [JSZip.loadAsync] yields them: an object
    is a directory exactly when its name ends with a slash. *)
Definition loaded (entries : zip_entries) : Prop :=
  forall name o, In (name, o) entries -> endsWith "/" name = dir o.

(** A format that [replace] inserts as it is (it holds no [$]) and that
    cannot turn a file name into a directory name. *)
Definition plain_format (fmt : string) : Prop :=
  includes "$" fmt = false /\ endsWith "/" fmt = false.

(** In a table of objects, the names that end with a slash are those of
    the directories. *)
Definition names_typed (z : gmap string zip_object) : Prop :=
  forall name o, z !! name = Some o -> endsWith "/" name = dir o.

(** ** The request handler around the pipeline *)

(** The user-facing message of the outer [catch] (lines 356-366), chosen
    by the first keyword that the error message holds. *)
Definition userMessage (message : string) : string :=
  if includes "sharp" message then
    "Image processing error. Please try again or use smaller resolution."
  else if includes "timeout" message then
    "Processing timeout. Try Potato Mode or smaller file."
  else if includes "memory" message then
    "Out of memory. Try reducing quality or resolution."
  else if includes "invalid" message then
    "Invalid ZIP file or corrupted textures detected."
  else "Failed to process texture pack".

(** What [res] is sent with: nothing ([end()]), a JSON object with its
    [error], its [details] (the message of the error; its stack and name
    are not represented) and its [suggestion], or the archive. *)
Inductive http_body : Type :=
| NoBody
| Json (error : string) (details : option exn) (suggestion : option string)
| Zip (contentDisposition : string) (xStats : final_stats) (body : bytes).

Record http_response : Type := Response {
  status : Z;
  sent : http_body
}.

(** The uploaded file: its [originalFilename] and what reading it and
    [JSZip.loadAsync] give. *)
Record uploaded_file : Type := Upload {
  originalFilename : option string;
  archive : exn + loaded_entries
}.

(** A request: its method and what [form.parse] gives, the fields and
    [files.file] when there is one. *)
Record request : Type := Request {
  method : string;
  form : exn + (form_fields * option uploaded_file)
}.

(** The answer of the outer [catch] (lines 345-373); [nodeEnv] is
    [process.env.NODE_ENV]. *)
Definition fail500 (nodeEnv : option string) (error : exn) : http_response :=
  {| status := 500;
     sent := Json (userMessage error)
               (match nodeEnv with
                | Some env => if String.eqb env "development" then Some error else None
                | None => None
                end)
               (Some "Try: Potato Mode + 256x resolution + Quality 75%"%string) |}.

(** The exported handler (lines 164-373). *)
Definition handleRequest (sharp_metadata : bytes -> exn + metadata)
    (sharp_toBuffer : pipeline -> exn + bytes)
    (generateAsync : gmap string zip_object -> exn + bytes)
    (toFixed2 : JsNumber.number -> string)
    (setHeader : string -> string -> exn + unit)
    (nodeEnv : option string) (req : request) : http_response :=
  if String.eqb (method req) "OPTIONS" then {| status := 200; sent := NoBody |}
  else if negb (String.eqb (method req) "POST") then
    {| status := 405; sent := Json "Method not allowed" None None |}
  else
    match form req with
    | inl error => fail500 nodeEnv error
    | inr (fields, None) =>
        {| status := 400; sent := Json "No file uploaded" None None |}
    | inr (fields, Some uploadedFile) =>
        match archive uploadedFile with
        | inl error => fail500 nodeEnv error
        | inr zip_files =>
            match handler sharp_metadata sharp_toBuffer generateAsync toFixed2
                    setHeader fields (originalFilename uploadedFile) zip_files with
            | Ok200 disposition st optimizedBuffer =>
                {| status := 200; sent := Zip disposition st optimizedBuffer |}
            | Error500 error => fail500 nodeEnv error
            end
        end
    end.

(** ** Reading the contents of the entries *)

(** An archive all of whose contents can be read. *)
Definition loadedOf (entries : zip_entries) : loaded_entries :=
  map (fun entry : string * zip_object =>
         (fst entry,
          match snd entry with
          | Dir => LoadedDir
          | File fileData => LoadedFile (inr fileData)
          end)) entries.

(** The entries with their contents, or the error of the first entry
    whose content cannot be read. *)
Fixpoint decodeEntries (entries : loaded_entries) : exn + zip_entries :=
  match entries with
  | [] => inr []
  | (filename, LoadedDir) :: rest =>
      match decodeEntries rest with
      | inr decoded => inr ((filename, Dir) :: decoded)
      | inl error => inl error
      end
  | (filename, LoadedFile (inr fileData)) :: rest =>
      match decodeEntries rest with
      | inr decoded => inr ((filename, File fileData) :: decoded)
      | inl error => inl error
      end
  | (_, LoadedFile (inl error)) :: _ => inl error
  end.

(** ** Sums of statistics *)

Definition bucket_plus (a b : bucket) : bucket :=
  Bucket (files a + files b) (saved a + saved b).

Definition categories_plus (a b : category_stats) : category_stats :=
  Categories (bucket_plus (modelengine a) (modelengine b))
    (bucket_plus (items a) (items b))
    (bucket_plus (vanilla a) (vanilla b))
    (bucket_plus (sounds a) (sounds b)).

(** Field by field addition of two [stats] objects. *)
Definition stats_plus (a b : Stats) : Stats :=
  MkStats (totalFiles a + totalFiles b) (imageFiles a + imageFiles b)
    (soundFiles a + soundFiles b) (optimizedImages a + optimizedImages b)
    (skippedFiles a + skippedFiles b) (criticalFiles a + criticalFiles b)
    (hdTexturesFound a + hdTexturesFound b) (originalSize a + originalSize b)
    (optimizedSize a + optimizedSize b)
    (categories_plus (categories a) (categories b)).

(** The sum of a list of [stats] objects. *)
Definition sumStats (l : list Stats) : Stats := fold_right stats_plus stats0 l.

(** The statistics of an archive that holds the one entry. *)
Definition entryStats (sharp_metadata : bytes -> exn + metadata)
    (sharp_toBuffer : pipeline -> exn + bytes) (fields : form_fields)
    (entry : string * zip_object) : Stats :=
  stats (snd (processEntry sharp_metadata sharp_toBuffer fields entry state0)).

(** The number of file entries whose name and content satisfy [p]. *)
Fixpoint countFiles (p : string -> bytes -> bool) (entries : zip_entries) : Z :=
  match entries with
  | [] => 0
  | (filename, File fileData) :: rest =>
      (if p filename fileData then 1 else 0) + countFiles p rest
  | (_, Dir) :: rest => countFiles p rest
  end.

(** Whether an entry is a file. *)
Definition isFile (entry : string * zip_object) : bool := negb (dir (snd entry)).

(** ** A test double for the image library

    The examples below run the handler on concrete archives.  In them an
    image is a buffer whose first two bytes give its width and height in
    units of 16 pixels; a buffer that starts with a zero byte, or is shorter
    than two bytes, is not decodable.  Encoding keeps the first half of the
    input. *)

Module Demo.

Definition dim (b : Init.Byte.byte) : Z := 16 * Z.of_N (Byte.to_N b).

Definition metadata_of (buffer : bytes) : exn + metadata :=
  match buffer with
  | w :: h :: _ =>
      if dim w =? 0 then inl "Input buffer contains unsupported image format"%string
      else inr {| width := Some (dim w); height := Some (dim h) |}
  | _ => inl "Input buffer contains unsupported image format"%string
  end.

Definition toBuffer (p : pipeline) : exn + bytes :=
  inr (firstn (Nat.div2 (length (source p))) (source p)).

(** The serialized archive is not inspected: one byte per object. *)
Definition generateAsync (z : gmap string zip_object) : exn + bytes :=
  inr (replicate (size z) Init.Byte.x50).

(** [toFixed(2)]: the multiple of 0.01 nearest to the exact value of the
    double, a tie going away from zero, with the sign of the number. *)
Definition toFixed2 (x : JsNumber.number) : string :=
  match x with
  | JsNumber.Finite q =>
      let n := Qfloor (Qabs q * 100 + (1 # 2)) in
      let cents := n mod 100 in
      (if Qlt_le_dec q 0 then "-" else EmptyString)
      +:+ pretty (n / 100) +:+ "."
      +:+ (if cents <? 10 then "0" else EmptyString) +:+ pretty cents
  | JsNumber.PosInfinity => "Infinity"
  | JsNumber.NegInfinity => "-Infinity"
  | JsNumber.NaN => "NaN"
  end.

Definition run (fields : form_fields) (entries : zip_entries) : (exn + unit) * state :=
  processEntries metadata_of toBuffer fields entries state0.

(** A header value is accepted when it holds tabs and the characters from
    32 on except 127. *)
Definition headerChar (c : ascii) : bool :=
  let n := N_of_ascii c in
  ((n =? 9) || ((32 <=? n) && negb (n =? 127)))%N.

Fixpoint headerValue (value : string) : bool :=
  match value with
  | EmptyString => true
  | String c rest => headerChar c && headerValue rest
  end.

Definition setHeader (name value : string) : exn + unit :=
  if headerValue value then inr tt
  else inl ("Invalid character in header content [" +:+ name +:+ "]").

(** A request for WebP in balanced mode. *)
Definition webp : form_fields :=
  {| field_resolution := 256; field_quality := 85; field_format := "webp";
     field_aggressive := false; field_deviceMode := "balanced" |}.

Definition icon : bytes := [Byte.x01; Byte.x01; Byte.x2a; Byte.x2a].
Definition texture : bytes := [Byte.x40; Byte.x40; Byte.x2a; Byte.x2a].
Definition broken : bytes := [Byte.x00; Byte.x00; Byte.x2a].

(** A small pack: the pack icon, a folder, an HD texture and an image
    that cannot be decoded. *)
Definition pack : zip_entries :=
  [ ("pack.png", File icon);
    ("textures/", Dir);
    ("textures/mob.png", File texture);
    ("textures/broken.png", File broken) ]%string.

End Demo.

(** * Properties *)

(** ** Numbers *)

(** The double nearest to one tenth. *)
Example round64_tenth :
  JsNumber.round64 (1 # 10)
  = JsNumber.Finite (3602879701896397 # 36028797018963968).
Proof. vm_compute. reflexivity. Qed.

(** Integers are doubles up to 2^53; above, a tie goes to the even
    neighbour. *)
Example round64_integers :
  JsNumber.round64 (inject_Z 160) = JsNumber.Finite (inject_Z 160) /\
  JsNumber.round64 (inject_Z (2 ^ 53 + 1)) = JsNumber.Finite (inject_Z (2 ^ 53)) /\
  JsNumber.round64 (inject_Z (2 ^ 53 + 3))
  = JsNumber.Finite (inject_Z (2 ^ 53 + 4)).
Proof. repeat split; vm_compute; reflexivity. Qed.

(** The ends of the range: 2^1024 is infinite, half of the least positive
    double is zero. *)
Example round64_range :
  JsNumber.round64 (inject_Z (2 ^ 1024)) = JsNumber.PosInfinity /\
  JsNumber.round64 (- inject_Z (2 ^ 1024)) = JsNumber.NegInfinity /\
  JsNumber.round64 (1 # Z.to_pos (2 ^ 1075)) = JsNumber.Finite 0.
Proof. repeat split; vm_compute; reflexivity. Qed.

(** 41 / 160 * 100 in doubles is just below 25.625. *)
Example percent_of_doubles :
  JsNumber.scale (JsNumber.div 41 160) 100
  = JsNumber.Finite (7212796278210559 # 281474976710656) /\
  (7212796278210559 # 281474976710656 < 25625 # 1000)%Q.
Proof. split; [vm_compute; reflexivity | reflexivity]. Qed.

(** ** Classification *)

Example classify_pack_png : classify "pack.png" = Critical.
Proof. reflexivity. Qed.
Example classify_font : classify "assets/minecraft/Font/glyph.PNG" = Critical.
Proof. reflexivity. Qed.
Example classify_stone : classify "assets/minecraft/textures/block/stone.png" = Image.
Proof. reflexivity. Qed.
Example classify_ogg : classify "sounds/hit.OGG" = Sound.
Proof. reflexivity. Qed.
Example classify_other : classify "LICENSE" = Other.
Proof. reflexivity. Qed.

Lemma isCriticalFile_pattern (filename : string) (p : pattern) :
  In p criticalPatterns -> test true p filename = true ->
  isCriticalFile filename = true.
Proof.
  intros Hin Htest. unfold isCriticalFile.
  apply existsb_exists. exists p. split; assumption.
Qed.

Lemma isCriticalFile_inv (filename : string) :
  isCriticalFile filename = true ->
  exists p, In p criticalPatterns /\ test true p filename = true.
Proof.
  unfold isCriticalFile. intros H. apply existsb_exists in H. exact H.
Qed.

(** The precedence matters: a name can satisfy a critical pattern and
    carry an image extension at the same time. *)
Example critical_before_image :
  isImageFile "pack.png" = true /\ isCriticalFile "pack.png" = true /\
  classify "pack.png" = Critical.
Proof. repeat split. Qed.

(** ** Resolution derivation *)

Lemma Math_min_le_l (a b : Q) : (Math_min a b <= a)%Q.
Proof. unfold Math_min. apply Q.le_min_l. Qed.

Lemma Math_min_le_r (a b : Q) : (Math_min a b <= b)%Q.
Proof. unfold Math_min. apply Q.le_min_r. Qed.

Lemma Math_min_cases (a b : Q) :
  ((a <= b)%Q /\ Math_min a b = a) \/ ((b < a)%Q /\ Math_min a b = b).
Proof.
  unfold Math_min, Qmin, GenericMinMax.gmin.
  destruct (Qcompare a b) eqn:Hc.
  - left. split; [| reflexivity]. apply Qeq_alt in Hc. rewrite Hc. apply Qle_refl.
  - left. split; [| reflexivity]. apply Qlt_alt in Hc. apply Qlt_le_weak. exact Hc.
  - right. split; [| reflexivity]. apply Qgt_alt in Hc. exact Hc.
Qed.

(** C5.  The resolution cap derived from the tier and the base resolution
    [R]: tier high gives min(R, 256), tier medium gives R, tier low gives
    min(R * 1.5, 512).  With base 512 tier high gives 256 and with base 256
    tier low gives 384. *)
Theorem getOptimalResolution_tiers (filename : string) (R : Q) :
  getOptimalResolution filename R high = Math_min R 256 /\
  getOptimalResolution filename R medium = R /\
  getOptimalResolution filename R low = Math_min (R * (3 # 2)) 512 /\
  (getOptimalResolution filename R high <= 256)%Q /\
  (getOptimalResolution filename R high <= R)%Q /\
  (getOptimalResolution filename R low <= 512)%Q /\
  (getOptimalResolution filename R low <= R * (3 # 2))%Q /\
  getOptimalResolution filename 512 high = 256%Q /\
  (getOptimalResolution filename 256 low == 384)%Q.
Proof.
  unfold getOptimalResolution.
  repeat split; try reflexivity;
    try apply Math_min_le_l; try apply Math_min_le_r.
Qed.

(** The cap is one of its two arguments: the smaller one. *)
Lemma getOptimalResolution_high_cases (filename : string) (R : Q) :
  ((R <= 256)%Q /\ getOptimalResolution filename R high = R) \/
  ((256 < R)%Q /\ getOptimalResolution filename R high = 256%Q).
Proof. unfold getOptimalResolution. apply Math_min_cases. Qed.

Lemma getOptimalResolution_low_cases (filename : string) (R : Q) :
  ((R * (3 # 2) <= 512)%Q /\
     getOptimalResolution filename R low = (R * (3 # 2))%Q) \/
  ((512 < R * (3 # 2))%Q /\ getOptimalResolution filename R low = 512%Q).
Proof. unfold getOptimalResolution. apply Math_min_cases. Qed.

(** ** The recompressor *)

Section OptimizerFacts.

Variable sharp_metadata : bytes -> exn + metadata.
Variable sharp_toBuffer : pipeline -> exn + bytes.

(** The [try] block returns the input or a strictly smaller encoding. *)
Lemma optimizeImage_try_result (buffer : bytes) (filename : string)
    (options : image_options) (result : bytes) :
  optimizeImage_try sharp_metadata sharp_toBuffer buffer filename options
    = inr result ->
  result = buffer \/
  (exists p, sharp_toBuffer p = inr result /\ source p = buffer /\
             blen result < blen buffer).
Proof.
  unfold optimizeImage_try.
  destruct (blen buffer =? 0); [discriminate |].
  destruct (sharp_metadata buffer) as [error | md]; [discriminate |].
  destruct (js_not (width md) || js_not (height md));
    [intros [= <-]; left; reflexivity |].
  destruct (js_le (width md) 32 && js_le (height md) 32);
    [intros [= <-]; left; reflexivity |].
  match goal with |- context [sharp_toBuffer ?p] =>
    destruct (sharp_toBuffer p) as [error | optimized] eqn:Hp end;
    [discriminate |].
  destruct (blen optimized <? blen buffer) eqn:Hlt; intros [= <-].
  - right. eexists. split; [exact Hp |]. split; [reflexivity |].
    apply Z.ltb_lt. exact Hlt.
  - left. reflexivity.
Qed.

Lemma optimizeImage_cases (buffer : bytes) (filename : string)
    (options : image_options) :
  optimizeImage sharp_metadata sharp_toBuffer buffer filename options = buffer \/
  (exists p,
     sharp_toBuffer p =
       inr (optimizeImage sharp_metadata sharp_toBuffer buffer filename options) /\
     source p = buffer /\
     blen (optimizeImage sharp_metadata sharp_toBuffer buffer filename options)
       < blen buffer).
Proof.
  unfold optimizeImage.
  destruct (optimizeImage_try sharp_metadata sharp_toBuffer buffer filename options)
    as [error | result] eqn:Htry.
  - left. reflexivity.
  - apply optimizeImage_try_result in Htry. exact Htry.
Qed.

Lemma optimizeImage_raise (buffer : bytes) (filename : string)
    (options : image_options) (error : exn) :
  optimizeImage_try sharp_metadata sharp_toBuffer buffer filename options
    = inl error ->
  optimizeImage sharp_metadata sharp_toBuffer buffer filename options = buffer.
Proof. unfold optimizeImage. intros ->. reflexivity. Qed.

Lemma optimizeImage_empty (buffer : bytes) (filename : string)
    (options : image_options) :
  blen buffer = 0 ->
  optimizeImage sharp_metadata sharp_toBuffer buffer filename options = buffer.
Proof.
  intros Hlen. unfold optimizeImage, optimizeImage_try.
  rewrite Hlen. reflexivity.
Qed.

Lemma optimizeImage_no_metadata (buffer : bytes) (filename : string)
    (options : image_options) (error : exn) :
  sharp_metadata buffer = inl error ->
  optimizeImage sharp_metadata sharp_toBuffer buffer filename options = buffer.
Proof.
  intros Hmd. unfold optimizeImage, optimizeImage_try. rewrite Hmd.
  destruct (blen buffer =? 0); reflexivity.
Qed.

Lemma optimizeImage_invalid_metadata (buffer : bytes) (filename : string)
    (options : image_options) (md : metadata) :
  sharp_metadata buffer = inr md ->
  js_not (width md) || js_not (height md) = true ->
  optimizeImage sharp_metadata sharp_toBuffer buffer filename options = buffer.
Proof.
  intros Hmd Hnot. unfold optimizeImage, optimizeImage_try. rewrite Hmd, Hnot.
  destruct (blen buffer =? 0); reflexivity.
Qed.

(** C1.  The result of [optimizeImage] is never longer than its input, for
    every buffer, every options value and every behaviour of the image
    library.  The result is either the input itself or an encoding that the
    library produced and that is strictly shorter than the input; it is the
    input when the buffer is empty, when the metadata cannot be read or has
    no width or height, and when anything raises inside the [try] block. *)
Theorem optimizeImage_never_grows (buffer : bytes) (filename : string)
    (options : image_options) :
  blen (optimizeImage sharp_metadata sharp_toBuffer buffer filename options)
    <= blen buffer /\
  (optimizeImage sharp_metadata sharp_toBuffer buffer filename options = buffer \/
   exists p,
     sharp_toBuffer p =
       inr (optimizeImage sharp_metadata sharp_toBuffer buffer filename options) /\
     source p = buffer /\
     blen (optimizeImage sharp_metadata sharp_toBuffer buffer filename options)
       < blen buffer) /\
  (blen buffer = 0 ->
   optimizeImage sharp_metadata sharp_toBuffer buffer filename options = buffer) /\
  (forall error, sharp_metadata buffer = inl error ->
   optimizeImage sharp_metadata sharp_toBuffer buffer filename options = buffer) /\
  (forall md, sharp_metadata buffer = inr md ->
   js_not (width md) || js_not (height md) = true ->
   optimizeImage sharp_metadata sharp_toBuffer buffer filename options = buffer) /\
  (forall error,
   optimizeImage_try sharp_metadata sharp_toBuffer buffer filename options
     = inl error ->
   optimizeImage sharp_metadata sharp_toBuffer buffer filename options = buffer).
Proof.
  split.
  { destruct (optimizeImage_cases buffer filename options) as [-> | (p & _ & _ & Hlt)];
      lia. }
  split; [apply optimizeImage_cases |].
  split; [apply optimizeImage_empty |].
  split; [intros error; apply optimizeImage_no_metadata |].
  split; [intros md; apply optimizeImage_invalid_metadata |].
  intros error. apply optimizeImage_raise.
Qed.

(** C6.  An image whose metadata is readable and whose width and height
    are both at most 32 is returned as it is. *)
Theorem optimizeImage_small_passthrough (buffer : bytes) (filename : string)
    (options : image_options) (w h : Z) :
  sharp_metadata buffer = inr {| width := Some w; height := Some h |} ->
  w <= 32 -> h <= 32 ->
  optimizeImage sharp_metadata sharp_toBuffer buffer filename options = buffer.
Proof.
  intros Hmd Hw Hh. unfold optimizeImage, optimizeImage_try. rewrite Hmd.
  destruct (blen buffer =? 0); [reflexivity |].
  cbn [width height js_not js_le].
  destruct (((w =? 0) || (h =? 0))%bool); [reflexivity |].
  apply Z.leb_le in Hw. apply Z.leb_le in Hh. rewrite Hw, Hh. reflexivity.
Qed.

End OptimizerFacts.

(** C6 on the test double: a 16x16 image under the default options. *)
Lemma optimizeImage_small_passthrough_witness :
  optimizeImage Demo.metadata_of Demo.toBuffer
    [Byte.x01; Byte.x01; Byte.x2a; Byte.x2a] "stone.png"
    (ImageOptions 256 85 "png" false)
  = [Byte.x01; Byte.x01; Byte.x2a; Byte.x2a].
Proof.
  apply (optimizeImage_small_passthrough Demo.metadata_of Demo.toBuffer
           [Byte.x01; Byte.x01; Byte.x2a; Byte.x2a] "stone.png"
           (ImageOptions 256 85 "png" false) 16 16).
  - reflexivity.
  - lia.
  - lia.
Defined.

(** An image above the floor is re-encoded by the test double. *)
Example optimizeImage_large :
  optimizeImage Demo.metadata_of Demo.toBuffer
    [Byte.x40; Byte.x40; Byte.x2a; Byte.x2a] "mob.png"
    (ImageOptions 256 85 "png" false)
  = [Byte.x40; Byte.x40].
Proof. reflexivity. Qed.

(** ** Facts about strings *)

Lemma append_nil (b : string) : EmptyString +:+ b = b.
Proof. reflexivity. Qed.

Lemma append_cons (c : ascii) (a b : string) :
  String c a +:+ b = String c (a +:+ b).
Proof. reflexivity. Qed.

Lemma length_append (a b : string) :
  String.length (a +:+ b) = (String.length a + String.length b)%nat.
Proof.
  induction a as [| c a IH].
  - reflexivity.
  - rewrite append_cons. cbn [String.length]. rewrite IH. reflexivity.
Qed.

Lemma toLowerCase_length (s : string) :
  String.length (toLowerCase s) = String.length s.
Proof.
  induction s as [| c s IH]; cbn [toLowerCase String.length];
    [reflexivity | rewrite IH; reflexivity].
Qed.

Lemma lower_char_idem (c : ascii) : lower_char (lower_char c) = lower_char c.
Proof. destruct c as [[] [] [] [] [] [] [] []]; reflexivity. Qed.

Lemma toLowerCase_idem (s : string) :
  toLowerCase (toLowerCase s) = toLowerCase s.
Proof.
  induction s as [| c s IH]; cbn [toLowerCase]; [reflexivity |].
  rewrite lower_char_idem, IH. reflexivity.
Qed.

(** [endsWith] finds a stem. *)
Lemma endsWith_stem (suffix s : string) :
  endsWith suffix s = true -> exists stem, s = stem +:+ suffix.
Proof.
  induction s as [| c s IH]; cbn [endsWith]; intros H.
  - apply orb_true_iff in H. destruct H as [H | H]; [| discriminate].
    apply String.eqb_eq in H. exists EmptyString. rewrite H. reflexivity.
  - apply orb_true_iff in H. destruct H as [H | H].
    + apply String.eqb_eq in H. exists EmptyString. rewrite H. reflexivity.
    + destruct (IH H) as (stem & ->). exists (String c stem). reflexivity.
Qed.

Lemma endsWith_refl (s : string) : endsWith s s = true.
Proof. destruct s; cbn [endsWith]; rewrite String.eqb_refl; reflexivity. Qed.

Lemma endsWith_append (suffix stem : string) :
  endsWith suffix (stem +:+ suffix) = true.
Proof.
  induction stem as [| c stem IH].
  - rewrite append_nil. apply endsWith_refl.
  - rewrite append_cons. cbn [endsWith]. rewrite IH. apply orb_true_r.
Qed.

(** Replacing a lower-case suffix swaps it for the replacement. *)
Lemma replaceSuffixCI_append (suffix rep stem : string) :
  toLowerCase suffix = suffix ->
  replaceSuffixCI suffix rep (stem +:+ suffix) = stem +:+ rep.
Proof.
  intros Hlow. induction stem as [| c stem IH].
  - rewrite !append_nil. destruct suffix as [| a suffix];
      cbn [replaceSuffixCI]; rewrite Hlow, String.eqb_refl; reflexivity.
  - rewrite !append_cons. cbn [replaceSuffixCI].
    destruct (String.eqb suffix (toLowerCase (String c (stem +:+ suffix)))) eqn:He.
    + apply String.eqb_eq in He. apply (f_equal String.length) in He.
      rewrite toLowerCase_length in He. cbn [String.length] in He.
      rewrite length_append in He. lia.
    + rewrite IH. reflexivity.
Qed.

(** Whether a name ends with a slash is decided by its last character. *)
Lemma endsWith_slash_cons (c : ascii) (s : string) :
  s <> EmptyString -> endsWith "/" (String c s) = endsWith "/" s.
Proof.
  intros Hs. cbn [endsWith]. destruct s as [| d s]; [contradiction |].
  cbn [String.eqb]. destruct (Ascii.eqb "/" c); reflexivity.
Qed.

Lemma endsWith_slash_append (a b : string) :
  b <> EmptyString -> endsWith "/" (a +:+ b) = endsWith "/" b.
Proof.
  intros Hb. induction a as [| c a IH]; [reflexivity |].
  rewrite append_cons. rewrite endsWith_slash_cons; [exact IH |].
  destruct a; [rewrite append_nil; exact Hb | rewrite append_cons; discriminate].
Qed.

Lemma forceTrailingSlash_ends (name : string) :
  endsWith "/" (forceTrailingSlash name) = true.
Proof.
  unfold forceTrailingSlash. destruct (endsWith "/" name) eqn:H; [exact H |].
  apply endsWith_append.
Qed.

Lemma forceTrailingSlash_id (name : string) :
  endsWith "/" name = true -> forceTrailingSlash name = name.
Proof. unfold forceTrailingSlash. intros ->. reflexivity. Qed.

(** ** The per-entry loop *)

Section HandlerFacts.

Variable sharp_metadata : bytes -> exn + metadata.
Variable sharp_toBuffer : pipeline -> exn + bytes.
Variable generateAsync : gmap string zip_object -> exn + bytes.
Variable toFixed2 : JsNumber.number -> string.
Variable fields : form_fields.

(** The only statement of the [try] block that can raise is the metadata
    read: nothing has been written when it does. *)
Lemma imageBlock_raise (filename : string) (fileData : bytes) (n : Z)
    (s : state) (error : exn) :
  sharp_metadata fileData = inl error ->
  imageBlock sharp_metadata sharp_toBuffer fields filename fileData n s
  = (inl error, s).
Proof.
  intros Hmd. unfold imageBlock, bind, await. rewrite Hmd. reflexivity.
Qed.

Lemma imageBlock_ok (filename : string) (fileData : bytes) (n : Z)
    (s : state) (md : metadata) :
  sharp_metadata fileData = inr md ->
  imageBlock sharp_metadata sharp_toBuffer fields filename fileData n s
  = (inr tt,
     let optimized :=
       optimizedOf sharp_metadata sharp_toBuffer fields filename fileData in
     {| optimizedZip :=
          <[newFilename fields filename := File optimized]> (optimizedZip s);
        stats :=
          on_categories
            (categorize filename (n - blen optimized))
            (add_optimizedImages 1
               (add_optimizedSize (blen optimized)
                  (if js_ge (width md) 512 || js_ge (height md) 512
                   then add_hdTexturesFound 1 (stats s) else stats s))) |}).
Proof.
  intros Hmd. unfold imageBlock, bind, await. rewrite Hmd.
  unfold optimizedOf, optimalResOf.
  destruct (js_ge (width md) 512 || js_ge (height md) 512); reflexivity.
Qed.

Lemma imageBlock_raise_inv (filename : string) (fileData : bytes) (n : Z)
    (s s1 : state) (error : exn) :
  imageBlock sharp_metadata sharp_toBuffer fields filename fileData n s
  = (inl error, s1) ->
  sharp_metadata fileData = inl error /\ s1 = s.
Proof.
  destruct (sharp_metadata fileData) as [e | md] eqn:Hmd.
  - rewrite (imageBlock_raise filename fileData n s e Hmd).
    intros [= -> ->]. split; reflexivity.
  - rewrite (imageBlock_ok filename fileData n s md Hmd). discriminate.
Qed.

Lemma processEntry_dir (filename : string) (s : state) :
  processEntry sharp_metadata sharp_toBuffer fields (filename, Dir) s
  = (inr tt,
     {| optimizedZip :=
          match optimizedZip s !! forceTrailingSlash filename with
          | Some _ => optimizedZip s
          | None => <[forceTrailingSlash filename := Dir]> (optimizedZip s)
          end;
        stats := stats s |}).
Proof. reflexivity. Qed.

Lemma processEntry_file (filename : string) (fileData : bytes) (s : state) :
  exists s',
    processEntry sharp_metadata sharp_toBuffer fields (filename, File fileData) s
      = (inr tt, s') /\
    optimizedZip s' =
      <[fst (entryOutput sharp_metadata sharp_toBuffer fields filename fileData) :=
          File (snd (entryOutput sharp_metadata sharp_toBuffer fields
                       filename fileData))]> (optimizedZip s) /\
    totalFiles (stats s') = totalFiles (stats s) + 1 /\
    originalSize (stats s') = originalSize (stats s) + blen fileData /\
    optimizedSize (stats s') =
      optimizedSize (stats s) +
      blen (snd (entryOutput sharp_metadata sharp_toBuffer fields filename fileData)).
Proof.
  unfold entryOutput, classify. cbn [processEntry].
  destruct (isCriticalFile filename); [eexists; repeat split; reflexivity |].
  destruct (isSoundFile filename); [eexists; repeat split; reflexivity |].
  destruct (isImageFile filename); [| eexists; repeat split; reflexivity].
  unfold bind at 1 2 3. cbn [update_stats]. unfold try_catch.
  destruct (sharp_metadata fileData) as [e | md] eqn:Hmd.
  - rewrite (imageBlock_raise _ _ _ _ e Hmd).
    eexists; repeat split; reflexivity.
  - rewrite (imageBlock_ok _ _ _ _ md Hmd).
    eexists. split; [reflexivity |].
    destruct (js_ge (width md) 512 || js_ge (height md) 512);
      repeat split; reflexivity.
Qed.

(** No entry makes the loop raise. *)
Lemma processEntry_total (entry : string * zip_object) (s : state) :
  exists s',
    processEntry sharp_metadata sharp_toBuffer fields entry s = (inr tt, s').
Proof.
  destruct entry as [filename [| fileData]].
  - eexists. apply processEntry_dir.
  - destruct (processEntry_file filename fileData s) as (s' & H & _).
    exists s'. exact H.
Qed.

Lemma processEntries_cons (entry : string * zip_object) (rest : zip_entries)
    (s s' : state) :
  processEntry sharp_metadata sharp_toBuffer fields entry s = (inr tt, s') ->
  processEntries sharp_metadata sharp_toBuffer fields (entry :: rest) s
  = processEntries sharp_metadata sharp_toBuffer fields rest s'.
Proof.
  intros H. cbn [processEntries]. unfold bind at 1. rewrite H. reflexivity.
Qed.

Lemma processEntries_total (entries : zip_entries) (s : state) :
  exists s',
    processEntries sharp_metadata sharp_toBuffer fields entries s = (inr tt, s').
Proof.
  revert s. induction entries as [| entry rest IH]; intros s.
  - exists s. reflexivity.
  - destruct (processEntry_total entry s) as (s1 & H1).
    rewrite (processEntries_cons entry rest s s1 H1). apply IH.
Qed.

(** The loop body dispatches on the category of the name. *)
Lemma processEntry_classify (filename : string) (fileData : bytes) (s : state) :
  processEntry sharp_metadata sharp_toBuffer fields (filename, File fileData) s
  = (update_stats (add_totalFiles 1) ;;
     update_stats (add_originalSize (blen fileData)) ;;
     handleFile sharp_metadata sharp_toBuffer fields (classify filename)
       filename fileData)%js s.
Proof.
  cbn [processEntry]. unfold classify, handleFile.
  destruct (isCriticalFile filename); [reflexivity |].
  destruct (isSoundFile filename); [reflexivity |].
  destruct (isImageFile filename); reflexivity.
Qed.

(** C4.  Classification is a total function of the name: every name has
    exactly one category.  The categories are tested in the order critical,
    sound, image, other: a name is critical exactly when it satisfies one of
    the critical patterns, whatever its extension, and it is a sound, an
    image or another file only when every earlier test fails.  The loop
    body treats a file entry by its category alone. *)
Theorem classify_total_precedence (filename : string) :
  (exists! c, classify filename = c) /\
  (forall p, In p criticalPatterns -> test true p filename = true ->
     classify filename = Critical) /\
  (classify filename = Critical <-> isCriticalFile filename = true) /\
  (classify filename = Sound <->
     isCriticalFile filename = false /\ isSoundFile filename = true) /\
  (classify filename = Image <->
     isCriticalFile filename = false /\ isSoundFile filename = false /\
     isImageFile filename = true) /\
  (classify filename = Other <->
     isCriticalFile filename = false /\ isSoundFile filename = false /\
     isImageFile filename = false) /\
  (forall fileData s,
     processEntry sharp_metadata sharp_toBuffer fields (filename, File fileData) s
     = (update_stats (add_totalFiles 1) ;;
        update_stats (add_originalSize (blen fileData)) ;;
        handleFile sharp_metadata sharp_toBuffer fields (classify filename)
          filename fileData)%js s).
Proof.
  split.
  { exists (classify filename). split; [reflexivity | intros c Hc; exact Hc]. }
  split.
  { intros p Hin Htest. unfold classify.
    rewrite (isCriticalFile_pattern filename p Hin Htest). reflexivity. }
  split; [| split; [| split; [| split; [| apply processEntry_classify]]]];
    unfold classify;
    destruct (isCriticalFile filename), (isSoundFile filename),
      (isImageFile filename); split; intros H; try discriminate H;
      try reflexivity; repeat split;
      repeat match goal with H : _ /\ _ |- _ => destruct H end;
      try discriminate.
Qed.

(** *** Names *)

Lemma newFilename_cases (filename : string) :
  newFilename fields filename = filename \/
  (field_format fields <> "png"%string /\
   exists stem,
     filename = stem +:+ ".png" /\
     newFilename fields filename = stem +:+ "." +:+ field_format fields).
Proof.
  unfold newFilename.
  destruct (String.eqb (field_format fields) "png") eqn:Hfmt;
    [left; reflexivity |].
  destruct (endsWith ".png" filename) eqn:Hpng; [| left; reflexivity].
  right. split; [apply String.eqb_neq; exact Hfmt |].
  destruct (endsWith_stem _ _ Hpng) as (stem & ->).
  exists stem. split; [reflexivity |].
  cbn [negb andb]. apply replaceSuffixCI_append. reflexivity.
Qed.

Lemma newFilename_rename (stem : string) :
  field_format fields <> "png"%string ->
  newFilename fields (stem +:+ ".png") = stem +:+ "." +:+ field_format fields.
Proof.
  intros Hfmt. unfold newFilename.
  apply String.eqb_neq in Hfmt. rewrite Hfmt, endsWith_append.
  cbn [negb andb]. apply replaceSuffixCI_append. reflexivity.
Qed.

Lemma newFilename_png (filename : string) :
  field_format fields = "png"%string -> newFilename fields filename = filename.
Proof. intros Hfmt. unfold newFilename. rewrite Hfmt. reflexivity. Qed.

Lemma newFilename_not_dir (filename : string) :
  plain_format (field_format fields) ->
  endsWith "/" filename = false ->
  endsWith "/" (newFilename fields filename) = false.
Proof.
  intros [_ Hslash] Hname.
  destruct (newFilename_cases filename) as [-> | (_ & stem & _ & ->)];
    [exact Hname |].
  rewrite endsWith_slash_append; [| discriminate].
  destruct (field_format fields) as [| c fmt] eqn:Hfmt; [reflexivity |].
  change ("." +:+ String c fmt) with (String "." (String c fmt)).
  rewrite endsWith_slash_cons; [exact Hslash | discriminate].
Qed.

(** A file keeps its name unless it is a readable image, which gets
    [newFilename]. *)
Lemma entryOutput_name (filename : string) (fileData : bytes) :
  fst (entryOutput sharp_metadata sharp_toBuffer fields filename fileData) =
  match classify filename, sharp_metadata fileData with
  | Image, inr _ => newFilename fields filename
  | _, _ => filename
  end.
Proof.
  unfold entryOutput.
  destruct (classify filename), (sharp_metadata fileData); reflexivity.
Qed.

Lemma entryOutput_not_dir (filename : string) (fileData : bytes) :
  plain_format (field_format fields) ->
  endsWith "/" filename = false ->
  endsWith "/" (fst (entryOutput sharp_metadata sharp_toBuffer fields
                       filename fileData)) = false.
Proof.
  intros Hfmt Hname. rewrite entryOutput_name.
  destruct (classify filename), (sharp_metadata fileData);
    try exact Hname; apply newFilename_not_dir; assumption.
Qed.

(** An entry is stored under its written name, and no stored name is
    ever removed. *)
Lemma processEntry_names (entry : string * zip_object) (s s' : state) :
  processEntry sharp_metadata sharp_toBuffer fields entry s = (inr tt, s') ->
  is_Some (optimizedZip s' !!
             writtenName sharp_metadata sharp_toBuffer fields entry) /\
  (forall name, is_Some (optimizedZip s !! name) ->
                is_Some (optimizedZip s' !! name)).
Proof.
  destruct entry as [filename [| fileData]]; unfold writtenName; cbn [fst snd].
  - rewrite processEntry_dir. intros [= <-]. cbn [optimizedZip].
    destruct (optimizedZip s !! forceTrailingSlash filename) as [o |] eqn:Hl.
    + split; [rewrite Hl; eexists; reflexivity | tauto].
    + split; [rewrite lookup_insert_eq; eexists; reflexivity |].
      intros name Hname.
      destruct (decide (forceTrailingSlash filename = name)) as [<- | Hne].
      * rewrite lookup_insert_eq. eexists; reflexivity.
      * rewrite lookup_insert_ne; assumption.
  - destruct (processEntry_file filename fileData s) as (s1 & Hrun & Hzip & _).
    rewrite Hrun. intros [= <-]. rewrite Hzip.
    split; [rewrite lookup_insert_eq; eexists; reflexivity |].
    intros name Hname.
    match goal with |- context [<[?k := _]> _] =>
      destruct (decide (k = name)) as [<- | Hne] end.
    + rewrite lookup_insert_eq. eexists; reflexivity.
    + rewrite lookup_insert_ne; assumption.
Qed.

(** A loaded entry keeps the table typed: slash-terminated names are
    directories, the others are files. *)
Lemma processEntry_typed (entry : string * zip_object) (s s' : state) :
  plain_format (field_format fields) ->
  endsWith "/" (fst entry) = dir (snd entry) ->
  names_typed (optimizedZip s) ->
  processEntry sharp_metadata sharp_toBuffer fields entry s = (inr tt, s') ->
  names_typed (optimizedZip s').
Proof.
  intros Hfmt Hentry Htyped.
  destruct entry as [filename [| fileData]]; cbn [fst snd dir] in Hentry.
  - rewrite processEntry_dir. intros [= <-]. cbn [optimizedZip].
    destruct (optimizedZip s !! forceTrailingSlash filename) as [o |] eqn:Hl;
      [exact Htyped |].
    intros name o.
    destruct (decide (forceTrailingSlash filename = name)) as [<- | Hne].
    + rewrite lookup_insert_eq. intros [= <-]. apply forceTrailingSlash_ends.
    + rewrite lookup_insert_ne by assumption. apply Htyped.
  - destruct (processEntry_file filename fileData s) as (s1 & Hrun & Hzip & _).
    rewrite Hrun. intros [= <-]. rewrite Hzip. intros name o.
    match goal with |- context [<[?k := _]> _] =>
      destruct (decide (k = name)) as [<- | Hne] end.
    + rewrite lookup_insert_eq. intros [= <-].
      apply entryOutput_not_dir; assumption.
    + rewrite lookup_insert_ne by assumption. apply Htyped.
Qed.

Lemma processEntries_names (entries : zip_entries) (s : state) :
  plain_format (field_format fields) ->
  loaded entries ->
  names_typed (optimizedZip s) ->
  exists s',
    processEntries sharp_metadata sharp_toBuffer fields entries s = (inr tt, s') /\
    names_typed (optimizedZip s') /\
    (forall name, is_Some (optimizedZip s !! name) ->
                  is_Some (optimizedZip s' !! name)) /\
    (forall entry, In entry entries ->
       is_Some (optimizedZip s' !!
                  writtenName sharp_metadata sharp_toBuffer fields entry)).
Proof.
  intros Hfmt. revert s.
  induction entries as [| entry rest IH]; intros s Hloaded Htyped.
  - exists s. repeat split; [exact Htyped | tauto | intros e []].
  - destruct (processEntry_total entry s) as (s1 & H1).
    rewrite (processEntries_cons _ _ _ _ H1).
    destruct (processEntry_names _ _ _ H1) as (Hhere & Hkeep1).
    assert (Hentry : endsWith "/" (fst entry) = dir (snd entry)).
    { destruct entry as [name o]. apply Hloaded. left. reflexivity. }
    pose proof (processEntry_typed _ _ _ Hfmt Hentry Htyped H1) as Htyped1.
    destruct (IH s1) as (s' & Hrun & Htyped' & Hkeep & Hall).
    { intros name o Hin. apply Hloaded. right. exact Hin. }
    { exact Htyped1. }
    exists s'. split; [exact Hrun |]. split; [exact Htyped' |].
    split; [intros name Hname; apply Hkeep, Hkeep1, Hname |].
    intros e [<- | Hin]; [apply Hkeep, Hhere | apply Hall, Hin].
Qed.

(** *** Sizes *)

Lemma classify_Image (filename : string) :
  classify filename = Image ->
  isCriticalFile filename = false /\ isSoundFile filename = false /\
  isImageFile filename = true.
Proof.
  unfold classify.
  destruct (isCriticalFile filename), (isSoundFile filename),
    (isImageFile filename); intros H; try discriminate H; repeat split.
Qed.

Lemma processEntries_sizes (entries : zip_entries) (s : state) :
  exists s',
    processEntries sharp_metadata sharp_toBuffer fields entries s = (inr tt, s') /\
    originalSize (stats s') = originalSize (stats s) + total (fileSizes entries) /\
    optimizedSize (stats s') =
      optimizedSize (stats s) +
      total (writtenSizes sharp_metadata sharp_toBuffer fields entries).
Proof.
  revert s. induction entries as [| [filename [| fileData]] rest IH]; intros s.
  - exists s. cbn. repeat split; lia.
  - rewrite (processEntries_cons _ _ _ _ (processEntry_dir filename s)).
    destruct (IH {| optimizedZip :=
                      match optimizedZip s !! forceTrailingSlash filename with
                      | Some _ => optimizedZip s
                      | None => <[forceTrailingSlash filename := Dir]> (optimizedZip s)
                      end;
                    stats := stats s |}) as (s' & Hrun & Ho & Hw).
    exists s'. split; [exact Hrun |]. cbn [stats] in Ho, Hw.
    split; [exact Ho | exact Hw].
  - destruct (processEntry_file filename fileData s)
      as (s1 & H1 & _ & _ & Ho1 & Hw1).
    rewrite (processEntries_cons _ _ _ _ H1).
    destruct (IH s1) as (s' & Hrun & Ho & Hw).
    exists s'. split; [exact Hrun |].
    unfold fileSizes, writtenSizes in *. cbn [flat_map fst snd app].
    unfold total in *. cbn [fold_right]. split; lia.
Qed.

(** *** Failure of one image *)

(** C2.  When the [try] block of an image entry raises, the exception is
    caught: the entry is stored under its own name with its original bytes,
    [skippedFiles] grows by exactly one, the entry counts as neither
    optimized nor categorized, and the loop goes on with the next entry and
    runs to its end. *)
Theorem image_failure_isolated (filename : string) (fileData : bytes)
    (rest : zip_entries) (s s1 : state) (error : exn) :
  classify filename = Image ->
  imageBlock sharp_metadata sharp_toBuffer fields filename fileData (blen fileData)
    {| optimizedZip := optimizedZip s;
       stats := add_imageFiles 1
                  (add_originalSize (blen fileData)
                     (add_totalFiles 1 (stats s))) |}
  = (inl error, s1) ->
  exists s2,
    processEntry sharp_metadata sharp_toBuffer fields (filename, File fileData) s
      = (inr tt, s2) /\
    optimizedZip s2 !! filename = Some (File fileData) /\
    skippedFiles (stats s2) = skippedFiles (stats s) + 1 /\
    optimizedSize (stats s2) = optimizedSize (stats s) + blen fileData /\
    optimizedImages (stats s2) = optimizedImages (stats s) /\
    categories (stats s2) = categories (stats s) /\
    processEntries sharp_metadata sharp_toBuffer fields
      ((filename, File fileData) :: rest) s
    = processEntries sharp_metadata sharp_toBuffer fields rest s2 /\
    exists s3,
      processEntries sharp_metadata sharp_toBuffer fields
        ((filename, File fileData) :: rest) s = (inr tt, s3).
Proof.
  intros Hclass Hraise.
  destruct (classify_Image filename Hclass) as (Hcrit & Hsound & Himg).
  destruct (imageBlock_raise_inv _ _ _ _ _ _ Hraise) as (Hmd & ->).
  assert (Hrun :
    processEntry sharp_metadata sharp_toBuffer fields (filename, File fileData) s
    = (inr tt,
       {| optimizedZip := <[filename := File fileData]> (optimizedZip s);
          stats := add_skippedFiles 1
                     (add_optimizedSize (blen fileData)
                        (add_imageFiles 1
                           (add_originalSize (blen fileData)
                              (add_totalFiles 1 (stats s))))) |})).
  { cbn [processEntry]. rewrite Hcrit, Hsound, Himg.
    unfold bind at 1 2 3. cbn [update_stats]. unfold try_catch.
    rewrite (imageBlock_raise _ _ _ _ _ Hmd). reflexivity. }
  eexists. split; [exact Hrun |].
  split; [cbn [optimizedZip]; apply lookup_insert_eq |].
  repeat (split; [reflexivity |]).
  split; [apply processEntries_cons; exact Hrun |].
  apply processEntries_total.
Qed.

(** *** Device mode *)

(** C3.  In potato mode the options handed to [optimizeImage] have
    [aggressiveMode] set whatever the caller's flag, the requested quality
    lowered by 10, and as target resolution the smaller of the
    priority-derived resolution and 256, hence at most 256; these are the
    options with which the bytes stored for a readable image are computed. *)
Theorem potato_override (filename : string) (fileData : bytes) :
  field_deviceMode fields = "potato"%string ->
  aggressiveMode (smartSettings fields (optimalResOf fields filename)) = true /\
  quality (smartSettings fields (optimalResOf fields filename))
    = field_quality fields - 10 /\
  targetResolution (smartSettings fields (optimalResOf fields filename))
    = Math_min (getOptimalResolution filename
                  (inject_Z (field_resolution fields))
                  (getFolderPriority filename)) 256 /\
  (targetResolution (smartSettings fields (optimalResOf fields filename))
     <= 256)%Q /\
  forall md n s,
    sharp_metadata fileData = inr md ->
    optimizedZip
      (snd (imageBlock sharp_metadata sharp_toBuffer fields filename fileData n s))
      !! newFilename fields filename
    = Some (File
        (optimizeImage sharp_metadata sharp_toBuffer fileData filename
           {| targetResolution :=
                Math_min (getOptimalResolution filename
                            (inject_Z (field_resolution fields))
                            (getFolderPriority filename)) 256;
              quality := field_quality fields - 10;
              format := field_format fields;
              aggressiveMode := true |})).
Proof.
  intros Hmode. unfold smartSettings, optimalResOf. rewrite Hmode.
  cbn [String.eqb Ascii.eqb Bool.eqb aggressiveMode quality targetResolution].
  rewrite orb_true_r.
  repeat (split; [reflexivity |]).
  split; [apply Math_min_le_r |].
  intros md n s Hmd. rewrite (imageBlock_ok _ _ _ _ md Hmd).
  cbn [snd optimizedZip]. rewrite lookup_insert_eq.
  unfold optimizedOf, smartSettings, optimalResOf. rewrite Hmode.
  cbn [String.eqb Ascii.eqb Bool.eqb]. rewrite orb_true_r. reflexivity.
Qed.

(** *** Category buckets *)

Lemma getFolderPriority_modelengine (filename : string) :
  includes "modelengine" (toLowerCase filename) = true ->
  getFolderPriority filename = high.
Proof. intros H. unfold getFolderPriority. rewrite H. reflexivity. Qed.

Lemma categorize_none (filename : string) (n : Z) (c : category_stats) :
  includes "modelengine" filename = false ->
  includes "items" filename = false ->
  includes "weapons" filename = false ->
  includes "assets/minecraft" filename = false ->
  categorize filename n c = c.
Proof. intros H1 H2 H3 H4. unfold categorize. rewrite H1, H2, H3, H4. reflexivity. Qed.

(** The tier depends on the lower-cased path only. *)
Lemma getFolderPriority_case_insensitive (filename : string) :
  getFolderPriority (toLowerCase filename) = getFolderPriority filename.
Proof. unfold getFolderPriority. rewrite toLowerCase_idem. reflexivity. Qed.

(** C10.  The tier is derived from the lower-cased path, the bucket from
    the path as it is.  For an image whose path holds none of
    "modelengine", "items", "weapons" and "assets/minecraft" in lower case,
    the tier is that of the lower-cased path (tier high when the path spells
    "modelengine" in some other case), and when the image is optimized it
    is counted in [optimizedImages] but no category bucket changes. *)
Theorem bucket_attribution_case_sensitive (filename : string)
    (fileData : bytes) (md : metadata) (s : state) :
  classify filename = Image ->
  sharp_metadata fileData = inr md ->
  includes "modelengine" filename = false ->
  includes "items" filename = false ->
  includes "weapons" filename = false ->
  includes "assets/minecraft" filename = false ->
  getFolderPriority filename = getFolderPriority (toLowerCase filename) /\
  (includes "modelengine" (toLowerCase filename) = true ->
   getFolderPriority filename = high) /\
  exists s',
    processEntry sharp_metadata sharp_toBuffer fields (filename, File fileData) s
      = (inr tt, s') /\
    optimizedImages (stats s') = optimizedImages (stats s) + 1 /\
    skippedFiles (stats s') = skippedFiles (stats s) /\
    categories (stats s') = categories (stats s).
Proof.
  intros Hclass Hmd H1 H2 H3 H4.
  split; [symmetry; apply getFolderPriority_case_insensitive |].
  split; [apply getFolderPriority_modelengine |].
  destruct (classify_Image filename Hclass) as (Hcrit & Hsound & Himg).
  eexists. split.
  - cbn [processEntry]. rewrite Hcrit, Hsound, Himg.
    unfold bind at 1 2 3. cbn [update_stats]. unfold try_catch.
    rewrite (imageBlock_ok _ _ _ _ md Hmd). reflexivity.
  - cbn [stats]. unfold on_categories.
    cbn [categories optimizedImages skippedFiles add_optimizedImages].
    rewrite (categorize_none filename _ _ H1 H2 H3 H4).
    destruct (js_ge (width md) 512 || js_ge (height md) 512);
      repeat split; reflexivity.
Qed.

(** *** Statistics *)

(** An archive all of whose contents can be read is processed as the
    entries with their contents. *)
Lemma processLoadedEntries_loadedOf (entries : zip_entries) (s : state) :
  processLoadedEntries sharp_metadata sharp_toBuffer fields (loadedOf entries) s
  = processEntries sharp_metadata sharp_toBuffer fields entries s.
Proof.
  revert s. induction entries as [| [filename [| fileData]] rest IH]; intros s.
  - reflexivity.
  - cbn [loadedOf map fst snd processLoadedEntries processEntries
         processLoadedEntry].
    unfold bind. destruct (processEntry _ _ _ _ s) as [[e | []] s1];
      [reflexivity | apply IH].
  - cbn [loadedOf map fst snd processLoadedEntries processEntries
         processLoadedEntry].
    unfold bind. destruct (processEntry _ _ _ _ s) as [[e | []] s1];
      [reflexivity | apply IH].
Qed.


(** *** Names of the output archive *)

Lemma names_typed_empty : names_typed ∅.
Proof. intros name o H. rewrite lookup_empty in H. discriminate. Qed.

(** C7 (amended).  For an archive as it is loaded and a plain format, the
    loop runs to its end and every file entry of the input is a file of the
    output: under its own name, except that a readable image entry (not
    critical, not a sound, metadata read without a raise) is stored under
    [newFilename], which replaces a final lower-case ".png" by the new
    extension when the format is not "png" and is the name itself
    otherwise.  Every directory entry of the input is a directory of the
    output. *)
Theorem archive_names_preserved (zip_files : zip_entries) :
  plain_format (field_format fields) ->
  loaded zip_files ->
  exists s,
    processEntries sharp_metadata sharp_toBuffer fields zip_files state0
      = (inr tt, s) /\
    (forall filename fileData,
       In (filename, File fileData) zip_files ->
       exists written,
         optimizedZip s !!
           match classify filename, sharp_metadata fileData with
           | Image, inr _ => newFilename fields filename
           | _, _ => filename
           end
         = Some (File written)) /\
    (forall filename,
       In (filename, Dir) zip_files -> optimizedZip s !! filename = Some Dir) /\
    (forall filename,
       newFilename fields filename = filename \/
       (field_format fields <> "png"%string /\
        exists stem,
          filename = stem +:+ ".png" /\
          newFilename fields filename = stem +:+ "." +:+ field_format fields)) /\
    (forall stem,
       field_format fields <> "png"%string ->
       newFilename fields (stem +:+ ".png") = stem +:+ "." +:+ field_format fields).
Proof.
  intros Hfmt Hloaded.
  destruct (processEntries_names zip_files state0 Hfmt Hloaded names_typed_empty)
    as (s & Hrun & Htyped & _ & Hall).
  exists s. split; [exact Hrun |].
  split; [| split; [| split; [apply newFilename_cases | apply newFilename_rename]]].
  - intros filename fileData Hin.
    pose proof (Hall _ Hin) as [o Ho].
    unfold writtenName in Ho. cbn [fst snd] in Ho.
    rewrite entryOutput_name in Ho.
    pose proof (Htyped _ _ Ho) as Hdir.
    assert (Hnodir : endsWith "/" filename = false) by apply (Hloaded _ _ Hin).
    rewrite <- entryOutput_name in Hdir.
    rewrite (entryOutput_not_dir _ _ Hfmt Hnodir) in Hdir.
    destruct o as [| written]; [discriminate Hdir |].
    exists written. exact Ho.
  - intros filename Hin.
    pose proof (Hall _ Hin) as [o Ho].
    assert (Hdir : endsWith "/" filename = true) by apply (Hloaded _ _ Hin).
    unfold writtenName in Ho. cbn [fst snd] in Ho.
    rewrite (forceTrailingSlash_id _ Hdir) in Ho.
    pose proof (Htyped _ _ Ho) as Ho'. rewrite Hdir in Ho'.
    destruct o; [exact Ho | discriminate Ho'].
Qed.

End HandlerFacts.

(** ** The theorems on concrete archives *)

Lemma plain_png : plain_format "png".
Proof. split; reflexivity. Qed.

Lemma plain_webp : plain_format "webp".
Proof. split; reflexivity. Qed.

Lemma loaded_pack : loaded Demo.pack.
Proof.
  intros name o Hin. unfold Demo.pack in Hin. cbn [In] in Hin.
  repeat destruct Hin as [[= <- <-] | Hin]; try reflexivity. destruct Hin.
Qed.

(** C2 on the test double: the entry that cannot be decoded is copied and
    counted as skipped, and the entries after it are processed. *)
Lemma image_failure_isolated_witness :
  exists s2,
    processEntry Demo.metadata_of Demo.toBuffer Demo.webp
      ("textures/broken.png"%string, File Demo.broken) state0 = (inr tt, s2) /\
    optimizedZip s2 !! "textures/broken.png"%string = Some (File Demo.broken) /\
    skippedFiles (stats s2) = 1.
Proof.
  destruct (image_failure_isolated Demo.metadata_of Demo.toBuffer Demo.webp
              "textures/broken.png" Demo.broken
              [("textures/mob.png"%string, File Demo.texture)] state0
              {| optimizedZip := ∅;
                 stats := add_imageFiles 1
                            (add_originalSize (blen Demo.broken)
                               (add_totalFiles 1 stats0)) |}
              "Input buffer contains unsupported image format"%string)
    as (s2 & Hrun & Hzip & Hskip & _).
  - reflexivity.
  - reflexivity.
  - exists s2. split; [exact Hrun |]. split; [exact Hzip |]. exact Hskip.
Defined.

(** C3 on the default form fields, whose device mode is potato. *)
Lemma potato_override_witness :
  aggressiveMode
    (smartSettings default_fields (optimalResOf default_fields "textures/mob.png"))
  = true /\
  quality
    (smartSettings default_fields (optimalResOf default_fields "textures/mob.png"))
  = 75.
Proof.
  destruct (potato_override Demo.metadata_of Demo.toBuffer default_fields
              "textures/mob.png" Demo.texture) as (Ha & Hq & _).
  - reflexivity.
  - split; [exact Ha | exact Hq].
Defined.

(** C10 on "ModelEngine/mob.png". *)
Lemma bucket_attribution_case_sensitive_witness :
  includes "modelengine" (toLowerCase "ModelEngine/mob.png") = true /\
  getFolderPriority "ModelEngine/mob.png" = high /\
  exists s',
    processEntry Demo.metadata_of Demo.toBuffer Demo.webp
      ("ModelEngine/mob.png"%string, File Demo.texture) state0 = (inr tt, s') /\
    optimizedImages (stats s') = 1 /\
    skippedFiles (stats s') = 0 /\
    categories (stats s') = categories stats0.
Proof.
  split; [reflexivity |].
  destruct (bucket_attribution_case_sensitive Demo.metadata_of Demo.toBuffer
              Demo.webp "ModelEngine/mob.png" Demo.texture
              {| width := Some 1024; height := Some 1024 |} state0)
    as (_ & Hhigh & Hrun); try reflexivity.
  split; [apply Hhigh; reflexivity | exact Hrun].
Defined.

(** The same image under a lower-case path is counted in its bucket. *)
Example bucket_lower_case :
  categories (stats (snd (Demo.run Demo.webp
    [("modelengine/mob.png"%string, File Demo.texture)])))
  = {| modelengine := Bucket 1 2; items := Bucket 0 0;
       vanilla := Bucket 0 0; sounds := Bucket 0 0 |}.
Proof. reflexivity. Qed.

(** C7 (amended) on the small pack, converted to WebP. *)
Lemma archive_names_preserved_witness :
  plain_format (field_format Demo.webp) /\
  loaded Demo.pack /\
  exists s,
    Demo.run Demo.webp Demo.pack = (inr tt, s) /\
    (forall filename, In (filename, Dir) Demo.pack ->
       optimizedZip s !! filename = Some Dir).
Proof.
  split; [exact plain_webp |]. split; [exact loaded_pack |].
  destruct (archive_names_preserved Demo.metadata_of Demo.toBuffer Demo.webp
              Demo.pack plain_webp loaded_pack) as (s & Hrun & _ & Hdirs & _).
  exists s. split; [exact Hrun | exact Hdirs].
Defined.

(** C7, counterexample.  The pack icon "pack.png" ends in ".png" and the
    format is not "png", yet the output has no "pack.webp": the entry is
    critical and keeps its name.  So does the image that cannot be decoded;
    only the readable image is renamed. *)
Lemma critical_png_keeps_name :
  In ("pack.png"%string, File Demo.icon) Demo.pack /\
  endsWith ".png" "pack.png" = true /\
  String.eqb (field_format Demo.webp) "png" = false /\
  optimizedZip (snd (Demo.run Demo.webp Demo.pack)) !! "pack.webp"%string = None /\
  optimizedZip (snd (Demo.run Demo.webp Demo.pack)) !! "pack.png"%string
    = Some (File Demo.icon) /\
  optimizedZip (snd (Demo.run Demo.webp Demo.pack)) !! "textures/broken.png"%string
    = Some (File Demo.broken) /\
  optimizedZip (snd (Demo.run Demo.webp Demo.pack)) !! "textures/mob.webp"%string
    = Some (File [Byte.x40; Byte.x40]).
Proof.
  split; [left; reflexivity |].
  repeat split; vm_compute; reflexivity.
Qed.

(** ** The download name *)

Lemma append_nil_r (a : string) : a +:+ EmptyString = a.
Proof.
  induction a as [| c a IH]; [reflexivity |].
  rewrite append_cons, IH. reflexivity.
Qed.

(** No occurrence of ".zip" can start inside a stem that holds none and
    run into the final ".zip". *)
Lemma startsWith_zip_stem (u : string) :
  u <> EmptyString ->
  startsWith ".zip" u = false ->
  startsWith ".zip" (u +:+ ".zip") = false.
Proof.
  intros Hne H.
  destruct u as [| c1 [| c2 [| c3 [| c4 u]]]]; [contradiction | | | |];
    rewrite ?append_cons, ?append_nil; cbn [startsWith] in *.
  - destruct (Ascii.eqb "." c1); reflexivity.
  - destruct (Ascii.eqb "." c1); [| reflexivity].
    destruct (Ascii.eqb "z" c2); reflexivity.
  - destruct (Ascii.eqb "." c1); [| reflexivity].
    destruct (Ascii.eqb "z" c2); [| reflexivity].
    destruct (Ascii.eqb "i" c3); reflexivity.
  - exact H.
Qed.

Lemma replace_zip_stem (rep stem : string) :
  includes ".zip" stem = false ->
  replace ".zip" rep (stem +:+ ".zip") = stem +:+ rep.
Proof.
  induction stem as [| c stem IH]; intros Hinc.
  - rewrite !append_nil. cbn [replace startsWith Ascii.eqb Bool.eqb String.length drop].
    apply append_nil_r.
  - cbn [includes] in Hinc. apply orb_false_iff in Hinc. destruct Hinc as [Hs Hi].
    pose proof (startsWith_zip_stem (String c stem)) as Hno.
    rewrite !append_cons in *. cbn [replace].
    rewrite Hno; [| discriminate | exact Hs].
    rewrite (IH Hi). reflexivity.
Qed.

(** When ".zip" occurs once, at the end of the name, the download name is
    the stem followed by the size tag. *)
Lemma outputName_single_zip (stem finalSizeMB : string) :
  includes ".zip" stem = false ->
  outputName (Some (stem +:+ ".zip")) finalSizeMB
  = stem +:+ "-optimized-" +:+ finalSizeMB +:+ "mb.zip".
Proof.
  intros Hinc. unfold outputName.
  assert (Hne : String.eqb (stem +:+ ".zip") EmptyString = false).
  { destruct stem; [reflexivity | rewrite append_cons; reflexivity]. }
  rewrite Hne. apply replace_zip_stem. exact Hinc.
Qed.

(** C9.  [replace] with the string pattern ".zip" rewrites the first
    occurrence of ".zip", wherever it is: in a name that holds ".zip" before
    its extension the size tag lands in the middle and the final ".zip" is
    left as it was. *)
Theorem outputName_first_occurrence :
  outputName (Some "my.zip.backup.zip"%string) "1.00"
    = "my-optimized-1.00mb.zip.backup.zip"%string /\
  outputName (Some "archive.zipped.zip"%string) "1.00"
    = "archive-optimized-1.00mb.zipped.zip"%string /\
  outputName (Some "pack.zip"%string) "1.00" = "pack-optimized-1.00mb.zip"%string /\
  outputName None "1.00" = "pack-optimized-1.00mb.zip"%string.
Proof.
  split; [vm_compute; reflexivity |].
  split; [vm_compute; reflexivity |].
  split; [exact (outputName_single_zip "pack" "1.00" eq_refl) |].
  exact (outputName_single_zip "pack" "1.00" eq_refl).
Qed.

(** ** End-to-end scenarios of the specification *)

(** Scenario A: [pack.mcmeta] and a 16x16 vanilla texture under the default
    options are both stored as they are. *)
Example scenario_A :
  let s := snd (Demo.run default_fields
             [ ("pack.mcmeta"%string, File [Byte.x7b; Byte.x7d]);
               ("assets/minecraft/textures/block/stone.png"%string, File Demo.icon) ]) in
  optimizedZip s !! "pack.mcmeta"%string = Some (File [Byte.x7b; Byte.x7d]) /\
  optimizedZip s !! "assets/minecraft/textures/block/stone.png"%string
    = Some (File Demo.icon) /\
  totalFiles (stats s) = 2 /\ criticalFiles (stats s) = 1 /\
  imageFiles (stats s) = 1 /\ optimizedImages (stats s) = 1 /\
  vanilla (categories (stats s)) = Bucket 1 0.
Proof. vm_compute. repeat split; reflexivity. Qed.

(** Scenario B: an HD texture under [assets/modelengine] in balanced mode
    has tier high, is re-encoded and is counted in the modelengine bucket. *)
Example scenario_B :
  let fields := {| field_resolution := 256; field_quality := 85;
                   field_format := "png"; field_aggressive := false;
                   field_deviceMode := "balanced" |} in
  let s := snd (Demo.run fields
             [ ("assets/modelengine/mob/dragon.png"%string, File Demo.texture) ]) in
  getFolderPriority "assets/modelengine/mob/dragon.png" = high /\
  targetResolution (smartSettings fields
                      (optimalResOf fields "assets/modelengine/mob/dragon.png"))
    = 256%Q /\
  hdTexturesFound (stats s) = 1 /\
  modelengine (categories (stats s)) = Bucket 1 2.
Proof. vm_compute. repeat split; reflexivity. Qed.

(** Scenario C: an entry that cannot be decoded is stored as it is and
    counted as skipped. *)
Example scenario_C :
  let s := snd (Demo.run default_fields
             [ ("textures/broken.png"%string, File Demo.broken) ]) in
  fst (Demo.run default_fields
         [ ("textures/broken.png"%string, File Demo.broken) ]) = inr tt /\
  optimizedZip s !! "textures/broken.png"%string = Some (File Demo.broken) /\
  skippedFiles (stats s) = 1 /\ optimizedImages (stats s) = 0.
Proof. vm_compute. repeat split; reflexivity. Qed.

(** The whole handler on the small pack, uploaded as "pack.zip". *)
Example handler_pack :
  exists final body,
    handler Demo.metadata_of Demo.toBuffer Demo.generateAsync Demo.toFixed2
      Demo.setHeader Demo.webp (Some "pack.zip"%string) (loadedOf Demo.pack)
    = Ok200 (contentDisposition "pack-optimized-0.00mb.zip") final body /\
    totalFiles (loop_stats final) = 3 /\
    originalSize (loop_stats final) = 11 /\
    optimizedSize (loop_stats final) = 9 /\
    finalZipSize final = 4 /\
    savedPercent final = "63.64"%string /\
    targetAchieved final = true.
Proof. eexists. eexists. vm_compute. repeat split; reflexivity. Qed.

(** * Further properties *)

(** ** Statistics are sums over the entries *)

Ltac stats_fields :=
  cbv [stats_plus categories_plus bucket_plus on_categories on_sounds
       on_modelengine on_items on_vanilla add_saved count_file
       add_totalFiles add_imageFiles add_soundFiles add_optimizedImages
       add_skippedFiles add_criticalFiles add_hdTexturesFound
       add_originalSize add_optimizedSize stats0
       totalFiles imageFiles soundFiles optimizedImages skippedFiles
       criticalFiles hdTexturesFound originalSize optimizedSize categories
       modelengine items vanilla sounds files saved].

Ltac stats_fields_all :=
  cbv [stats_plus categories_plus bucket_plus on_categories on_sounds
       on_modelengine on_items on_vanilla add_saved count_file
       add_totalFiles add_imageFiles add_soundFiles add_optimizedImages
       add_skippedFiles add_criticalFiles add_hdTexturesFound
       add_originalSize add_optimizedSize stats0
       totalFiles imageFiles soundFiles optimizedImages skippedFiles
       criticalFiles hdTexturesFound originalSize optimizedSize categories
       modelengine items vanilla sounds files saved] in *.

Ltac stats_eq :=
  stats_fields;
  repeat match goal with
         | |- MkStats _ _ _ _ _ _ _ _ _ _ = _ => f_equal
         | |- Categories _ _ _ _ = _ => f_equal
         | |- Bucket _ _ = _ => f_equal
         end;
  lia.

Ltac destruct_stats a := destruct a as [? ? ? ? ? ? ? ? ? [[] [] [] []]].

Lemma stats_plus_0_r (a : Stats) : stats_plus a stats0 = a.
Proof. destruct_stats a. stats_eq. Qed.

Lemma stats_plus_0_l (a : Stats) : stats_plus stats0 a = a.
Proof. destruct_stats a. stats_eq. Qed.

Lemma stats_plus_comm (a b : Stats) : stats_plus a b = stats_plus b a.
Proof. stats_eq. Qed.

Lemma stats_plus_assoc (a b c : Stats) :
  stats_plus a (stats_plus b c) = stats_plus (stats_plus a b) c.
Proof. stats_eq. Qed.

Section StatisticsFacts.

Variable sharp_metadata : bytes -> exn + metadata.
Variable sharp_toBuffer : pipeline -> exn + bytes.
Variable generateAsync : gmap string zip_object -> exn + bytes.
Variable toFixed2 : JsNumber.number -> string.
Variable fields : form_fields.

(** The statistics of one entry, by its kind. *)
Lemma entryStats_dir (filename : string) :
  entryStats sharp_metadata sharp_toBuffer fields (filename, Dir) = stats0.
Proof. reflexivity. Qed.

Lemma entryStats_copied (filename : string) (fileData : bytes) :
  classify filename <> Image ->
  entryStats sharp_metadata sharp_toBuffer fields (filename, File fileData)
  = match classify filename with
    | Critical =>
        add_criticalFiles 1
          (add_optimizedSize (blen fileData)
             (add_originalSize (blen fileData) (add_totalFiles 1 stats0)))
    | Sound =>
        on_categories (on_sounds count_file)
          (add_soundFiles 1
             (add_optimizedSize (blen fileData)
                (add_originalSize (blen fileData) (add_totalFiles 1 stats0))))
    | _ =>
        add_optimizedSize (blen fileData)
          (add_originalSize (blen fileData) (add_totalFiles 1 stats0))
    end.
Proof.
  intros Hclass. unfold entryStats. rewrite processEntry_classify.
  destruct (classify filename); try reflexivity. contradiction.
Qed.

Lemma entryStats_skipped (filename : string) (fileData : bytes) (error : exn) :
  classify filename = Image ->
  sharp_metadata fileData = inl error ->
  entryStats sharp_metadata sharp_toBuffer fields (filename, File fileData)
  = add_skippedFiles 1
      (add_optimizedSize (blen fileData)
         (add_imageFiles 1
            (add_originalSize (blen fileData) (add_totalFiles 1 stats0)))).
Proof.
  intros Hclass Hmd. unfold entryStats. rewrite processEntry_classify, Hclass.
  unfold handleFile, bind at 1 2 3. cbn [update_stats]. unfold try_catch.
  rewrite (imageBlock_raise _ _ _ _ _ _ _ _ Hmd). reflexivity.
Qed.

Lemma entryStats_optimized (filename : string) (fileData : bytes) (md : metadata) :
  classify filename = Image ->
  sharp_metadata fileData = inr md ->
  entryStats sharp_metadata sharp_toBuffer fields (filename, File fileData)
  = let optimized :=
      optimizedOf sharp_metadata sharp_toBuffer fields filename fileData in
    let st :=
      add_imageFiles 1
        (add_originalSize (blen fileData) (add_totalFiles 1 stats0)) in
    on_categories (categorize filename (blen fileData - blen optimized))
      (add_optimizedImages 1
         (add_optimizedSize (blen optimized)
            (if js_ge (width md) 512 || js_ge (height md) 512
             then add_hdTexturesFound 1 st else st))).
Proof.
  intros Hclass Hmd. unfold entryStats. rewrite processEntry_classify, Hclass.
  unfold handleFile, bind at 1 2 3. cbn [update_stats]. unfold try_catch.
  rewrite (imageBlock_ok _ _ _ _ _ _ _ _ Hmd). reflexivity.
Qed.

(** An entry adds its own statistics to those gathered so far. *)
Lemma processEntry_stats_plus (entry : string * zip_object) (s : state) :
  stats (snd (processEntry sharp_metadata sharp_toBuffer fields entry s))
  = stats_plus (stats s)
      (entryStats sharp_metadata sharp_toBuffer fields entry).
Proof.
  destruct entry as [filename [| fileData]].
  - rewrite processEntry_dir, entryStats_dir. cbn [snd stats].
    symmetry. apply stats_plus_0_r.
  - destruct s as [z st]. destruct (classify filename) eqn:Hclass.
    1, 2, 4: rewrite entryStats_copied by (rewrite Hclass; discriminate);
      rewrite processEntry_classify, Hclass; cbn [stats snd];
      unfold handleFile, bind, update_stats, zip_file; cbn [stats snd];
      destruct_stats st; stats_eq.
    destruct (sharp_metadata fileData) as [error | md] eqn:Hmd.
    + rewrite (entryStats_skipped _ _ _ Hclass Hmd).
      rewrite processEntry_classify, Hclass.
      unfold handleFile, bind at 1 2 3. cbn [update_stats]. unfold try_catch.
      rewrite (imageBlock_raise _ _ _ _ _ _ _ _ Hmd).
      unfold imageFallback, bind, update_stats, zip_file. cbn [stats snd].
      destruct_stats st; stats_eq.
    + rewrite (entryStats_optimized _ _ _ Hclass Hmd).
      rewrite processEntry_classify, Hclass.
      unfold handleFile, bind at 1 2 3. cbn [update_stats]. unfold try_catch.
      rewrite (imageBlock_ok _ _ _ _ _ _ _ _ Hmd). cbn [stats snd].
      cbv zeta. unfold categorize.
      destruct (js_ge (width md) 512 || js_ge (height md) 512),
        (includes "modelengine" filename),
        (includes "items" filename || includes "weapons" filename),
        (includes "assets/minecraft" filename);
        destruct_stats st; stats_eq.
Qed.

Lemma processEntries_stats_plus (entries : zip_entries) (s : state) :
  stats (snd (processEntries sharp_metadata sharp_toBuffer fields entries s))
  = stats_plus (stats s)
      (sumStats (map (entryStats sharp_metadata sharp_toBuffer fields) entries)).
Proof.
  revert s. induction entries as [| entry rest IH]; intros s.
  - cbn. symmetry. apply stats_plus_0_r.
  - destruct (processEntry_total sharp_metadata sharp_toBuffer fields entry s)
      as (s1 & H1).
    rewrite (processEntries_cons _ _ _ _ _ _ _ H1), IH.
    replace (stats s1)
      with (stats (snd (processEntry sharp_metadata sharp_toBuffer fields entry s)))
      by (rewrite H1; reflexivity).
    rewrite processEntry_stats_plus. cbn [map sumStats fold_right].
    symmetry. apply stats_plus_assoc.
Qed.

Lemma processEntries_stats (entries : zip_entries) :
  stats (snd (processEntries sharp_metadata sharp_toBuffer fields entries state0))
  = sumStats (map (entryStats sharp_metadata sharp_toBuffer fields) entries).
Proof. rewrite processEntries_stats_plus. apply stats_plus_0_l. Qed.

Lemma blen_nonneg (b : bytes) : 0 <= blen b.
Proof. unfold blen. lia. Qed.

Lemma optimizedOf_le (filename : string) (fileData : bytes) :
  blen (optimizedOf sharp_metadata sharp_toBuffer fields filename fileData)
    <= blen fileData.
Proof.
  unfold optimizedOf.
  destruct (optimizeImage_cases sharp_metadata sharp_toBuffer fileData filename
              (smartSettings fields (optimalResOf fields filename)))
    as [-> | (p & _ & _ & Hlt)]; lia.
Qed.

(** A property of statistics that holds of no entries, of every single
    entry, and of a sum when it holds of both terms, holds after the loop. *)
Lemma stats_after_loop (P : Stats -> Prop) :
  P stats0 ->
  (forall a b, P a -> P b -> P (stats_plus a b)) ->
  (forall entry, P (entryStats sharp_metadata sharp_toBuffer fields entry)) ->
  forall entries,
    P (stats (snd (processEntries sharp_metadata sharp_toBuffer fields
                     entries state0))).
Proof.
  intros H0 Hplus Hentry entries. rewrite processEntries_stats.
  induction entries as [| entry rest IH]; cbn [map sumStats fold_right].
  - exact H0.
  - apply Hplus; [apply Hentry | exact IH].
Qed.

(** The statistics of a single entry, case by case. *)
Lemma entryStats_cases (P : Stats -> Prop) (entry : string * zip_object) :
  P stats0 ->
  (forall n, 0 <= n ->
     P (add_criticalFiles 1
          (add_optimizedSize n (add_originalSize n (add_totalFiles 1 stats0))))) ->
  (forall n, 0 <= n ->
     P (on_categories (on_sounds count_file)
          (add_soundFiles 1
             (add_optimizedSize n (add_originalSize n (add_totalFiles 1 stats0)))))) ->
  (forall n, 0 <= n ->
     P (add_optimizedSize n (add_originalSize n (add_totalFiles 1 stats0)))) ->
  (forall n, 0 <= n ->
     P (add_skippedFiles 1
          (add_optimizedSize n
             (add_imageFiles 1 (add_originalSize n (add_totalFiles 1 stats0)))))) ->
  (forall n m filename (hd : bool), 0 <= m <= n ->
     P (on_categories (categorize filename (n - m))
          (add_optimizedImages 1
             (add_optimizedSize m
                (if hd
                 then add_hdTexturesFound 1
                        (add_imageFiles 1
                           (add_originalSize n (add_totalFiles 1 stats0)))
                 else add_imageFiles 1
                        (add_originalSize n (add_totalFiles 1 stats0))))))) ->
  P (entryStats sharp_metadata sharp_toBuffer fields entry).
Proof.
  intros Hdir Hcrit Hsound Hother Hskip Hopt.
  destruct entry as [filename [| fileData]]; [rewrite entryStats_dir; exact Hdir |].
  pose proof (blen_nonneg fileData) as Hn.
  destruct (classify filename) eqn:Hclass.
  1, 2, 4: rewrite entryStats_copied by (rewrite Hclass; discriminate);
    rewrite Hclass; auto.
  destruct (sharp_metadata fileData) as [error | md] eqn:Hmd.
  - rewrite (entryStats_skipped _ _ _ Hclass Hmd). auto.
  - rewrite (entryStats_optimized _ _ _ Hclass Hmd). cbv zeta.
    apply (Hopt (blen fileData)
             (blen (optimizedOf sharp_metadata sharp_toBuffer fields filename fileData))
             filename (js_ge (width md) 512 || js_ge (height md) 512)).
    split; [apply blen_nonneg | apply optimizedOf_le].
Qed.

Ltac stats_invariant :=
  cbv zeta;
  match goal with
  | |- context [stats (snd (processEntries ?m ?t ?f ?es state0))] =>
      pattern (stats (snd (processEntries m t f es state0)));
      apply stats_after_loop
  end;
  [ stats_fields; lia
  | intros a b Ha Hb; destruct_stats a; destruct_stats b; stats_fields_all; lia
  | intros entry; apply entryStats_cases; intros;
    try match goal with
        | |- context [categorize ?name _] =>
            unfold categorize;
            destruct (includes "modelengine" name),
              (includes "items" name || includes "weapons" name),
              (includes "assets/minecraft" name)
        end;
    try match goal with hd : bool |- _ => destruct hd end;
    stats_fields; lia ].

(** X1.  After the loop the counters are consistent: every image is
    either optimized or skipped, the three named kinds never count more
    than the files seen, an HD texture is an optimized image, the three
    image buckets never count more than the optimized images, and the
    sounds bucket counts the sound files with no savings. *)
Theorem counters_consistent (entries : zip_entries) :
  let st := stats (snd (processEntries sharp_metadata sharp_toBuffer fields
                          entries state0)) in
  imageFiles st = optimizedImages st + skippedFiles st /\
  criticalFiles st + soundFiles st + imageFiles st <= totalFiles st /\
  0 <= criticalFiles st /\ 0 <= soundFiles st /\
  0 <= optimizedImages st /\ 0 <= skippedFiles st /\
  0 <= hdTexturesFound st <= optimizedImages st /\
  0 <= files (modelengine (categories st)) /\
  0 <= files (items (categories st)) /\
  0 <= files (vanilla (categories st)) /\
  files (modelengine (categories st)) + files (items (categories st))
    + files (vanilla (categories st)) <= optimizedImages st /\
  files (sounds (categories st)) = soundFiles st /\
  saved (sounds (categories st)) = 0.
Proof. stats_invariant. Qed.

(** X2.  The loop never adds bytes: [optimizedSize] is at most
    [originalSize].  The savings of each image bucket are never negative,
    and together they are at most originalSize - optimizedSize. *)
Theorem loop_never_grows (entries : zip_entries) :
  let st := stats (snd (processEntries sharp_metadata sharp_toBuffer fields
                          entries state0)) in
  0 <= optimizedSize st <= originalSize st /\
  0 <= saved (modelengine (categories st)) /\
  0 <= saved (items (categories st)) /\
  0 <= saved (vanilla (categories st)) /\
  saved (modelengine (categories st)) + saved (items (categories st))
    + saved (vanilla (categories st)) <= originalSize st - optimizedSize st.
Proof. stats_invariant. Qed.

Lemma sumStats_cons (x : Stats) (l : list Stats) :
  sumStats (x :: l) = stats_plus x (sumStats l).
Proof. reflexivity. Qed.

Lemma sumStats_perm (l l' : list Stats) :
  Permutation l l' -> sumStats l = sumStats l'.
Proof.
  unfold sumStats.
  induction 1 as [| x l l' _ IH | x y l | l l' l'' _ IH1 _ IH2];
    cbn [fold_right].
  - reflexivity.
  - rewrite IH. reflexivity.
  - rewrite !stats_plus_assoc, (stats_plus_comm y x). reflexivity.
  - rewrite IH1. exact IH2.
Qed.

(** X3.  The statistics do not depend on the order in which the entries
    of the archive are visited. *)
Theorem stats_order_independent (entries entries' : zip_entries) :
  Permutation entries entries' ->
  stats (snd (processEntries sharp_metadata sharp_toBuffer fields entries state0))
  = stats (snd (processEntries sharp_metadata sharp_toBuffer fields entries' state0)).
Proof.
  intros Hperm. rewrite !processEntries_stats.
  apply sumStats_perm, Permutation_map, Hperm.
Qed.

(** X4.  Directory entries leave no trace in the statistics: an archive
    and the archive of its files alone give the same statistics. *)
Theorem stats_ignore_directories (entries : zip_entries) :
  stats (snd (processEntries sharp_metadata sharp_toBuffer fields entries state0))
  = stats (snd (processEntries sharp_metadata sharp_toBuffer fields
                  (List.filter isFile entries) state0)).
Proof.
  rewrite !processEntries_stats.
  induction entries as [| [filename [| fileData]] rest IH];
    cbn [List.filter isFile dir snd negb map]; rewrite ?sumStats_cons.
  - reflexivity.
  - rewrite entryStats_dir, stats_plus_0_l. exact IH.
  - rewrite IH. reflexivity.
Qed.

(** X5.  Each counter is the number of file entries of its kind:
    [totalFiles] counts the files, [criticalFiles], [soundFiles] and
    [imageFiles] the files of each category, [optimizedImages] the images
    whose metadata could be read, [skippedFiles] those whose metadata could
    not, and [hdTexturesFound] the readable images with a side of 512 or
    more. *)
Theorem counters_count (entries : zip_entries) :
  let st := stats (snd (processEntries sharp_metadata sharp_toBuffer fields
                          entries state0)) in
  totalFiles st = countFiles (fun _ _ => true) entries /\
  criticalFiles st =
    countFiles (fun filename _ =>
                  match classify filename with Critical => true | _ => false end)
      entries /\
  soundFiles st =
    countFiles (fun filename _ =>
                  match classify filename with Sound => true | _ => false end)
      entries /\
  imageFiles st =
    countFiles (fun filename _ =>
                  match classify filename with Image => true | _ => false end)
      entries /\
  optimizedImages st =
    countFiles (fun filename fileData =>
                  match classify filename, sharp_metadata fileData with
                  | Image, inr _ => true
                  | _, _ => false
                  end) entries /\
  skippedFiles st =
    countFiles (fun filename fileData =>
                  match classify filename, sharp_metadata fileData with
                  | Image, inl _ => true
                  | _, _ => false
                  end) entries /\
  hdTexturesFound st =
    countFiles (fun filename fileData =>
                  match classify filename, sharp_metadata fileData with
                  | Image, inr md => js_ge (width md) 512 || js_ge (height md) 512
                  | _, _ => false
                  end) entries.
Proof.
  cbv zeta. rewrite processEntries_stats.
  induction entries as [| [filename [| fileData]] rest IH];
    cbn [map countFiles]; rewrite ?sumStats_cons.
  - repeat split; reflexivity.
  - rewrite entryStats_dir, stats_plus_0_l. exact IH.
  - set (r := sumStats (map (entryStats sharp_metadata sharp_toBuffer fields) rest))
      in *.
    destruct (classify filename) eqn:Hclass.
    1, 2, 4: rewrite entryStats_copied by (rewrite Hclass; discriminate);
      rewrite Hclass; destruct (sharp_metadata fileData);
      destruct_stats r; stats_fields_all; lia.
    destruct (sharp_metadata fileData) as [error | md] eqn:Hmd.
    + rewrite (entryStats_skipped _ _ _ Hclass Hmd).
      destruct_stats r; stats_fields_all; lia.
    + rewrite (entryStats_optimized _ _ _ Hclass Hmd). cbv zeta.
      unfold categorize.
      destruct (js_ge (width md) 512 || js_ge (height md) 512),
        (includes "modelengine" filename),
        (includes "items" filename || includes "weapons" filename),
        (includes "assets/minecraft" filename);
        destruct_stats r; stats_fields_all; lia.
Qed.

End StatisticsFacts.

(** X3 on the small pack and the same pack read backwards. *)
Lemma stats_order_independent_witness :
  stats (snd (Demo.run Demo.webp Demo.pack))
  = stats (snd (Demo.run Demo.webp (rev Demo.pack))).
Proof.
  apply (stats_order_independent Demo.metadata_of Demo.toBuffer Demo.webp
           Demo.pack (rev Demo.pack)).
  apply Permutation_rev.
Defined.

(** ** Contents of the output archive *)

Section ArchiveFacts.

Variable sharp_metadata : bytes -> exn + metadata.
Variable sharp_toBuffer : pipeline -> exn + bytes.
Variable generateAsync : gmap string zip_object -> exn + bytes.
Variable toFixed2 : JsNumber.number -> string.
Variable fields : form_fields.

(** An entry touches no name but the one it is written under. *)
Lemma processEntry_other_name (entry : string * zip_object) (s s' : state)
    (name : string) :
  processEntry sharp_metadata sharp_toBuffer fields entry s = (inr tt, s') ->
  name <> writtenName sharp_metadata sharp_toBuffer fields entry ->
  optimizedZip s' !! name = optimizedZip s !! name.
Proof.
  destruct entry as [filename [| fileData]]; unfold writtenName; cbn [fst snd].
  - rewrite processEntry_dir. intros [= <-] Hne. cbn [optimizedZip].
    destruct (optimizedZip s !! forceTrailingSlash filename); [reflexivity |].
    apply lookup_insert_ne. congruence.
  - destruct (processEntry_file sharp_metadata sharp_toBuffer fields
                filename fileData s) as (s1 & Hrun & Hzip & _).
    rewrite Hrun. intros [= <-] Hne. rewrite Hzip.
    apply lookup_insert_ne. congruence.
Qed.

Lemma processEntries_other_names (entries : zip_entries) (s s' : state)
    (name : string) :
  processEntries sharp_metadata sharp_toBuffer fields entries s = (inr tt, s') ->
  ~ In name (map (writtenName sharp_metadata sharp_toBuffer fields) entries) ->
  optimizedZip s' !! name = optimizedZip s !! name.
Proof.
  revert s. induction entries as [| entry rest IH]; intros s Hrun Hnot.
  - cbn in Hrun. injection Hrun as <-. reflexivity.
  - destruct (processEntry_total sharp_metadata sharp_toBuffer fields entry s)
      as (s1 & H1).
    rewrite (processEntries_cons _ _ _ _ _ _ _ H1) in Hrun.
    cbn [map In] in Hnot.
    rewrite (IH s1 Hrun) by tauto.
    apply (processEntry_other_name _ _ _ _ H1). intros ->. tauto.
Qed.

(** What an entry stores under its name when the name is free. *)
Lemma processEntry_written (entry : string * zip_object) (s s' : state) :
  processEntry sharp_metadata sharp_toBuffer fields entry s = (inr tt, s') ->
  optimizedZip s !! writtenName sharp_metadata sharp_toBuffer fields entry = None ->
  optimizedZip s' !! writtenName sharp_metadata sharp_toBuffer fields entry
  = Some match snd entry with
         | Dir => Dir
         | File fileData =>
             File (snd (entryOutput sharp_metadata sharp_toBuffer fields
                          (fst entry) fileData))
         end.
Proof.
  destruct entry as [filename [| fileData]]; unfold writtenName; cbn [fst snd].
  - rewrite processEntry_dir. intros [= <-] Hfree. cbn [optimizedZip].
    rewrite Hfree. apply lookup_insert_eq.
  - destruct (processEntry_file sharp_metadata sharp_toBuffer fields
                filename fileData s) as (s1 & Hrun & Hzip & _).
    rewrite Hrun. intros [= <-] _. rewrite Hzip. apply lookup_insert_eq.
Qed.

Lemma processEntries_written (entries : zip_entries) (s : state) :
  NoDup (map (writtenName sharp_metadata sharp_toBuffer fields) entries) ->
  (forall entry, In entry entries ->
     optimizedZip s !! writtenName sharp_metadata sharp_toBuffer fields entry
     = None) ->
  exists s',
    processEntries sharp_metadata sharp_toBuffer fields entries s = (inr tt, s') /\
    forall entry, In entry entries ->
      optimizedZip s' !! writtenName sharp_metadata sharp_toBuffer fields entry
      = Some match snd entry with
             | Dir => Dir
             | File fileData =>
                 File (snd (entryOutput sharp_metadata sharp_toBuffer fields
                              (fst entry) fileData))
             end.
Proof.
  revert s. induction entries as [| entry rest IH]; intros s Hnodup Hfree.
  - exists s. split; [reflexivity | intros e []].
  - cbn [map] in Hnodup. apply NoDup_cons in Hnodup. destruct Hnodup as [Hnew Hnodup].
    rewrite list_elem_of_In in Hnew.
    destruct (processEntry_total sharp_metadata sharp_toBuffer fields entry s)
      as (s1 & H1).
    rewrite (processEntries_cons _ _ _ _ _ _ _ H1).
    destruct (IH s1 Hnodup) as (s' & Hrun & Hall).
    { intros e Hin.
      rewrite (processEntry_other_name _ _ _ _ H1).
      - apply Hfree. right. exact Hin.
      - intros Heq. apply Hnew. rewrite <- Heq. apply in_map. exact Hin. }
    exists s'. split; [exact Hrun |].
    intros e [<- | Hin]; [| apply Hall, Hin].
    rewrite (processEntries_other_names _ _ _ _ Hrun Hnew).
    apply (processEntry_written _ _ _ H1). apply Hfree. left. reflexivity.
Qed.

(** X6.  When no two entries are written under the same name, every
    entry is found in the output as the loop wrote it: a directory as a
    directory, a file with the bytes of [entryOutput]; in particular a file
    that is not classified as an image is stored under its own name with
    its own bytes. *)
Theorem unique_names_content (entries : zip_entries) :
  NoDup (map (writtenName sharp_metadata sharp_toBuffer fields) entries) ->
  exists s,
    processEntries sharp_metadata sharp_toBuffer fields entries state0
      = (inr tt, s) /\
    (forall filename fileData,
       In (filename, File fileData) entries ->
       optimizedZip s !!
         fst (entryOutput sharp_metadata sharp_toBuffer fields filename fileData)
       = Some (File (snd (entryOutput sharp_metadata sharp_toBuffer fields
                            filename fileData)))) /\
    (forall filename fileData,
       In (filename, File fileData) entries ->
       classify filename <> Image ->
       optimizedZip s !! filename = Some (File fileData)) /\
    (forall filename,
       In (filename, Dir) entries ->
       optimizedZip s !! forceTrailingSlash filename = Some Dir).
Proof.
  intros Hnodup.
  destruct (processEntries_written entries state0 Hnodup) as (s & Hrun & Hall).
  { intros e _. apply lookup_empty. }
  exists s. split; [exact Hrun |].
  split; [| split].
  - intros filename fileData Hin. exact (Hall _ Hin).
  - intros filename fileData Hin Hclass. pose proof (Hall _ Hin) as H.
    unfold writtenName, entryOutput in H. cbn [fst snd] in H.
    destruct (classify filename); try contradiction;
      destruct (sharp_metadata fileData); exact H.
  - intros filename Hin. exact (Hall _ Hin).
Qed.

Lemma decodeEntries_loadedOf (entries : zip_entries) :
  decodeEntries (loadedOf entries) = inr entries.
Proof.
  induction entries as [| [filename [| fileData]] rest IH]; [reflexivity | |];
    cbn [loadedOf map fst snd decodeEntries]; fold (loadedOf rest);
    rewrite IH; reflexivity.
Qed.

Lemma decodeEntries_inr (loaded : loaded_entries) (entries : zip_entries) :
  decodeEntries loaded = inr entries -> loaded = loadedOf entries.
Proof.
  revert entries.
  induction loaded as [| [filename [| [error | fileData]]] rest IH];
    intros entries; cbn [decodeEntries].
  - intros [= <-]. reflexivity.
  - destruct (decodeEntries rest) as [e | decoded]; [discriminate |].
    intros [= <-]. cbn [loadedOf map fst snd]. fold (loadedOf decoded).
    rewrite <- (IH decoded eq_refl). reflexivity.
  - discriminate.
  - destruct (decodeEntries rest) as [e | decoded]; [discriminate |].
    intros [= <-]. cbn [loadedOf map fst snd]. fold (loadedOf decoded).
    rewrite <- (IH decoded eq_refl). reflexivity.
Qed.

(** The first content that cannot be read ends the loop with its error. *)
Lemma processLoadedEntries_rejected (loaded : loaded_entries) (error : exn)
    (s : state) :
  decodeEntries loaded = inl error ->
  fst (processLoadedEntries sharp_metadata sharp_toBuffer fields loaded s)
  = inl error.
Proof.
  revert s.
  induction loaded as [| [filename [| [e | fileData]]] rest IH];
    intros s; cbn [decodeEntries processLoadedEntries processLoadedEntry].
  - discriminate.
  - destruct (decodeEntries rest) as [e | decoded]; [| discriminate].
    intros [= ->]. unfold bind.
    destruct (processEntry_total sharp_metadata sharp_toBuffer fields
                (filename, Dir) s) as (s1 & ->).
    apply IH. reflexivity.
  - intros [= ->]. reflexivity.
  - destruct (decodeEntries rest) as [e | decoded]; [| discriminate].
    intros [= ->]. unfold bind.
    destruct (processEntry_total sharp_metadata sharp_toBuffer fields
                (filename, File fileData) s) as (s1 & ->).
    apply IH. reflexivity.
Qed.

(** X7.  From the loaded archive on, the handler ends in its error
    branch in exactly three cases: the content of an entry cannot be read
    (the first such entry gives the error), the serialization raises, or
    the [Content-Disposition] header is refused.  What the entries hold,
    unreadable images included, never makes it fail. *)
Theorem handler_failure_causes (setHeader : string -> string -> exn + unit)
    (originalFilename : option string) (zip_files : loaded_entries)
    (error : exn) :
  handler sharp_metadata sharp_toBuffer generateAsync toFixed2 setHeader fields
    originalFilename zip_files = Error500 error
  <->
  decodeEntries zip_files = inl error \/
  exists entries s,
    decodeEntries zip_files = inr entries /\
    processEntries sharp_metadata sharp_toBuffer fields entries state0
      = (inr tt, s) /\
    (generateAsync (optimizedZip s) = inl error \/
     exists optimizedBuffer,
       generateAsync (optimizedZip s) = inr optimizedBuffer /\
       setHeader "Content-Disposition"
         (contentDisposition
            (outputName originalFilename
               (finalSizeMB (finalStats toFixed2 (stats s)
                               (blen optimizedBuffer)))))
       = inl error).
Proof.
  unfold handler.
  destruct (decodeEntries zip_files) as [e | entries] eqn:Hdec.
  - pose proof (processLoadedEntries_rejected zip_files e state0 Hdec) as Hrej.
    destruct (processLoadedEntries _ _ _ zip_files state0) as [[e' | []] s'];
      cbn [fst] in Hrej; [| discriminate].
    injection Hrej as ->. split.
    + intros [= ->]. left. reflexivity.
    + intros [[= ->] | (en & s & H & _)]; [reflexivity | discriminate].
  - rewrite (decodeEntries_inr _ _ Hdec), processLoadedEntries_loadedOf.
    destruct (processEntries_total sharp_metadata sharp_toBuffer fields
                entries state0) as (s & Hrun).
    rewrite Hrun. cbv zeta. split.
    + intros H. right. exists entries, s.
      split; [reflexivity |]. split; [exact Hrun |].
      destruct (generateAsync (optimizedZip s)) as [e | body].
      * injection H as ->. left. reflexivity.
      * right. exists body. split; [reflexivity |].
        destruct (setHeader _ _) as [e | []]; [| discriminate].
        injection H as ->. reflexivity.
    + intros [H | (en & s0 & [= <-] & Hrun0 & H)]; [discriminate |].
      rewrite Hrun in Hrun0. injection Hrun0 as <-.
      destruct H as [-> | (body & -> & ->)]; reflexivity.
Qed.

(** X8.  An archive whose files hold no byte at all (or that has no
    file) has [originalSize] 0: the percentage is a division by zero, and
    [savedPercent] is the rendering of -Infinity as soon as the serialized
    archive is not empty. *)
Theorem savedPercent_without_bytes (setHeader : string -> string -> exn + unit)
    (originalFilename : option string)
    (zip_files : zip_entries) (disposition : string) (final : final_stats)
    (optimizedBuffer : bytes) :
  handler sharp_metadata sharp_toBuffer generateAsync toFixed2 setHeader fields
    originalFilename (loadedOf zip_files)
  = Ok200 disposition final optimizedBuffer ->
  total (fileSizes zip_files) = 0 ->
  optimizedBuffer <> [] ->
  originalSize (loop_stats final) = 0 /\
  savedBytes final = - blen optimizedBuffer /\
  savedPercent final = toFixed2 JsNumber.NegInfinity.
Proof.
  intros Hrun Hzero Hbody. unfold handler in Hrun.
  rewrite processLoadedEntries_loadedOf in Hrun.
  destruct (processEntries_sizes sharp_metadata sharp_toBuffer fields
              zip_files state0) as (s & Hloop & Ho & _).
  rewrite Hloop in Hrun.
  destruct (generateAsync (optimizedZip s)) as [e | body]; [discriminate |].
  cbv zeta in Hrun. destruct (setHeader _ _) as [e | []]; [discriminate |].
  injection Hrun as _ <- <-.
  assert (Horig : originalSize (stats s) = 0).
  { rewrite Ho, Hzero. reflexivity. }
  assert (Hlen : 0 < blen body).
  { unfold blen. destruct body; [contradiction | cbn [length]; lia]. }
  unfold finalStats. cbn [loop_stats savedBytes savedPercent].
  rewrite Horig. split; [reflexivity |]. split; [lia |].
  unfold JsNumber.div. cbn [Z.eqb].
  destruct (0 - blen body =? 0) eqn:E1; [apply Z.eqb_eq in E1; lia |].
  destruct (0 - blen body <? 0) eqn:E2; [reflexivity |].
  apply Z.ltb_ge in E2. lia.
Qed.

End ArchiveFacts.

(** ** More on strings *)

Lemma append_assoc (a b c : string) : (a +:+ b) +:+ c = a +:+ b +:+ c.
Proof.
  induction a as [| x a IH]; [reflexivity |].
  rewrite !append_cons, IH. reflexivity.
Qed.

Lemma startsWith_spec (p s : string) :
  startsWith p s = true <-> exists t, s = p +:+ t.
Proof.
  revert s. induction p as [| a p IH]; intros s.
  - split; [intros _; exists s; reflexivity | reflexivity].
  - destruct s as [| b s]; cbn [startsWith].
    + split; [discriminate | intros (t & Ht); rewrite append_cons in Ht; discriminate].
    + destruct (Ascii.eqb_spec a b) as [<- | Hne].
      * rewrite IH. split; intros (t & Ht); exists t.
        -- rewrite append_cons, Ht. reflexivity.
        -- rewrite append_cons in Ht. injection Ht as ->. reflexivity.
      * split; [discriminate |].
        intros (t & Ht). rewrite append_cons in Ht. injection Ht as -> _.
        contradiction.
Qed.

Lemma includes_spec (needle s : string) :
  includes needle s = true <-> exists a b, s = a +:+ needle +:+ b.
Proof.
  induction s as [| c s IH]; cbn [includes].
  - rewrite orb_false_r, startsWith_spec. split.
    + intros (t & Ht). exists EmptyString, t. exact Ht.
    + intros ([| x a] & b & H).
      * exists b. exact H.
      * rewrite append_cons in H. discriminate.
  - rewrite orb_true_iff, startsWith_spec, IH. split.
    + intros [(t & Ht) | (a & b & Hab)].
      * exists EmptyString, t. exact Ht.
      * exists (String c a), b. rewrite append_cons, Hab. reflexivity.
    + intros ([| x a] & b & H).
      * left. exists b. exact H.
      * right. rewrite append_cons in H. injection H as -> ->.
        exists a, b. reflexivity.
Qed.

(** A substring of a substring is a substring. *)
Lemma includes_trans (k w s : string) :
  includes k w = true -> includes w s = true -> includes k s = true.
Proof.
  rewrite !includes_spec. intros (a & b & ->) (a' & b' & ->).
  exists (a' +:+ a), (b +:+ b'). rewrite !append_assoc. reflexivity.
Qed.

(** A pattern that is absent is not replaced. *)
Lemma replace_absent (pat rep s : string) :
  includes pat s = false -> replace pat rep s = s.
Proof.
  induction s as [| c s IH]; cbn [includes replace]; intros H;
    apply orb_false_iff in H; destruct H as [Hs Hi]; rewrite Hs.
  - reflexivity.
  - rewrite (IH Hi). reflexivity.
Qed.

Lemma startsWith_zip_straddle (u post : string) :
  u <> EmptyString ->
  startsWith ".zip" u = false ->
  startsWith ".zip" (u +:+ ".zip" +:+ post) = false.
Proof.
  intros Hne H.
  destruct u as [| c1 [| c2 [| c3 [| c4 u]]]]; [contradiction | | | |];
    rewrite ?append_cons, ?append_nil; cbn [startsWith] in *.
  - destruct (Ascii.eqb "." c1); reflexivity.
  - destruct (Ascii.eqb "." c1); [| reflexivity].
    destruct (Ascii.eqb "z" c2); reflexivity.
  - destruct (Ascii.eqb "." c1); [| reflexivity].
    destruct (Ascii.eqb "z" c2); [| reflexivity].
    destruct (Ascii.eqb "i" c3); reflexivity.
  - exact H.
Qed.

Lemma replace_first_zip (rep pre post : string) :
  includes ".zip" pre = false ->
  replace ".zip" rep (pre +:+ ".zip" +:+ post) = pre +:+ rep +:+ post.
Proof.
  induction pre as [| c pre IH]; intros Hinc.
  - reflexivity.
  - cbn [includes] in Hinc. apply orb_false_iff in Hinc. destruct Hinc as [Hs Hi].
    pose proof (startsWith_zip_straddle (String c pre) post) as Hno.
    rewrite !append_cons in *. cbn [replace].
    rewrite Hno; [| discriminate | exact Hs].
    rewrite (IH Hi). reflexivity.
Qed.

(** ** The download name, in general *)

(** X9.  The size tag replaces the first ".zip" of the uploaded name and
    nothing else: what stands before it and after it is kept. *)
Theorem outputName_first_zip (pre post finalSizeMB : string) :
  includes ".zip" pre = false ->
  outputName (Some (pre +:+ ".zip" +:+ post)) finalSizeMB
  = pre +:+ "-optimized-" +:+ finalSizeMB +:+ "mb.zip" +:+ post.
Proof.
  intros Hinc. unfold outputName.
  assert (Hne : String.eqb (pre +:+ ".zip" +:+ post) EmptyString = false).
  { destruct pre; [reflexivity | rewrite append_cons; reflexivity]. }
  rewrite Hne, (replace_first_zip _ _ _ Hinc), !append_assoc. reflexivity.
Qed.

(** X10.  An uploaded name without ".zip" is the download name as it
    is: it gets neither the size tag nor the extension. *)
Theorem outputName_without_zip (name finalSizeMB : string) :
  name <> EmptyString ->
  includes ".zip" name = false ->
  outputName (Some name) finalSizeMB = name.
Proof.
  intros Hne Hinc. unfold outputName.
  apply String.eqb_neq in Hne. rewrite Hne. apply replace_absent. exact Hinc.
Qed.

Lemma outputName_first_zip_witness :
  outputName (Some "skins.zip.old"%string) "2.50"
  = "skins-optimized-2.50mb.zip.old"%string.
Proof.
  exact (outputName_first_zip "skins" ".old" "2.50" eq_refl).
Defined.

Lemma outputName_without_zip_witness :
  outputName (Some "pack.ZIP"%string) "2.50" = "pack.ZIP"%string.
Proof.
  apply (outputName_without_zip "pack.ZIP" "2.50"); [discriminate | reflexivity].
Defined.

(** ** Classification and priority, further *)

Lemma sound_image_tail (s : string) :
  (endsWith ".ogg" s || endsWith ".wav" s || endsWith ".mp3" s)
  && (endsWith ".png" s || endsWith ".jpg" s || endsWith ".jpeg" s) = false.
Proof.
  induction s as [| c s IH]; [reflexivity |].
  cbn [endsWith].
  repeat match goal with
         | |- context [String.eqb ?lit (String c s)] =>
             let E := fresh "E" in
             destruct (String.eqb lit (String c s)) eqn:E;
             [ apply String.eqb_eq in E; injection E as <- <-; reflexivity | ]
         end.
  cbn [orb]. exact IH.
Qed.

(** X12.  No name is both a sound and an image: the sound extensions
    and the image extensions exclude each other, so the order of these two
    tests in the loop does not matter. *)
Theorem sound_image_disjoint (filename : string) :
  isSoundFile filename && isImageFile filename = false.
Proof.
  unfold isSoundFile, isImageFile, test, test_cs. cbn [existsb].
  rewrite !orb_false_r, !orb_assoc. apply sound_image_tail.
Qed.

Lemma keyword_in_word (word s : string) :
  test false keywordPattern word = true ->
  includes word s = true ->
  test false keywordPattern s = true.
Proof.
  unfold test, keywordPattern, test_cs. rewrite !existsb_exists.
  intros (k & Hin & Hk) Hw. exists k. split; [exact Hin |].
  exact (includes_trans _ _ _ Hk Hw).
Qed.

(** X13.  The keywords are matched as substrings of the lower-cased
    path: a path that holds any word in which "modelengine" or a keyword
    occurs (as "mage" does in "images" and "damage") has tier high. *)
Theorem keyword_inside_word (filename word : string) :
  includes "modelengine" word || test false keywordPattern word = true ->
  includes word (toLowerCase filename) = true ->
  getFolderPriority filename = high.
Proof.
  intros Hword Hpath. unfold getFolderPriority.
  apply orb_true_iff in Hword. destruct Hword as [Hme | Hkw].
  - rewrite (includes_trans _ _ _ Hme Hpath). reflexivity.
  - rewrite (keyword_in_word _ _ Hkw Hpath).
    destruct (includes "modelengine" (toLowerCase filename)); reflexivity.
Qed.

Lemma keyword_inside_word_witness :
  getFolderPriority "assets/minecraft/textures/Images/logo.png" = high.
Proof.
  apply (keyword_inside_word "assets/minecraft/textures/Images/logo.png" "images");
    reflexivity.
Defined.

(** ** Encoder settings and resolutions along the whole chain *)

(** X14.  In potato mode the two reductions of the quality add up: a
    PNG is encoded with the requested quality - 15 and a palette of 128
    colours, a WebP with the requested quality - 10. *)
Theorem potato_encoder (fields : form_fields) (optimalRes : Q) :
  field_deviceMode fields = "potato"%string ->
  (field_format fields = "png"%string ->
   compression (smartSettings fields optimalRes)
   = Some (EncPng {| png_quality := field_quality fields - 15;
                     compressionLevel := 9; palette := Some true;
                     colors := Some 128; png_effort := Some 10;
                     adaptiveFiltering := None; progressive := true |})) /\
  (field_format fields = "webp"%string ->
   compression (smartSettings fields optimalRes)
   = Some (EncWebp {| webp_quality := field_quality fields - 10;
                      webp_effort := 6; alphaQuality := 95 |})).
Proof.
  intros Hmode. unfold compression, smartSettings. rewrite Hmode.
  cbn [format quality aggressiveMode String.eqb Ascii.eqb Bool.eqb].
  rewrite orb_true_r. split; intros ->; cbn [String.eqb Ascii.eqb Bool.eqb].
  - do 2 f_equal. f_equal. lia.
  - reflexivity.
Qed.

Lemma potato_encoder_witness :
  compression (smartSettings default_fields 256)
  = Some (EncPng {| png_quality := 70;
                    compressionLevel := 9; palette := Some true;
                    colors := Some 128; png_effort := Some 10;
                    adaptiveFiltering := None; progressive := true |}).
Proof.
  destruct (potato_encoder default_fields 256 eq_refl) as [Hpng _].
  exact (Hpng eq_refl).
Defined.

(** X15.  The target resolution handed to [optimizeImage] is never
    more than one and a half times the requested resolution, and never more
    than the requested resolution itself unless the lower-cased path holds
    "assets/minecraft/textures/". *)
Theorem target_resolution_bound (fields : form_fields) (filename : string) :
  0 <= field_resolution fields ->
  (targetResolution (smartSettings fields (optimalResOf fields filename))
     <= inject_Z (field_resolution fields) * (3 # 2))%Q /\
  (includes "assets/minecraft/textures/" (toLowerCase filename) = false ->
   (targetResolution (smartSettings fields (optimalResOf fields filename))
      <= inject_Z (field_resolution fields))%Q).
Proof.
  intros Hres.
  assert (HR : (0 <= inject_Z (field_resolution fields))%Q).
  { change 0%Q with (inject_Z 0). rewrite <- Zle_Qle. exact Hres. }
  set (R := inject_Z (field_resolution fields)) in *.
  assert (Hcap : forall r : Q,
            (targetResolution (smartSettings fields r) <= r)%Q).
  { intros r. unfold smartSettings. cbn [targetResolution].
    destruct (String.eqb (field_deviceMode fields) "potato");
      [apply Math_min_le_l | apply Qle_refl]. }
  assert (Hlow : (optimalResOf fields filename <= R * (3 # 2))%Q).
  { unfold optimalResOf, getOptimalResolution. fold R.
    destruct (getFolderPriority filename).
    - apply Qle_trans with R; [apply Math_min_le_l | lra].
    - lra.
    - apply Math_min_le_l. }
  split.
  - apply Qle_trans with (optimalResOf fields filename); [apply Hcap | exact Hlow].
  - intros Hpath.
    apply Qle_trans with (optimalResOf fields filename); [apply Hcap |].
    unfold optimalResOf, getOptimalResolution, getFolderPriority. fold R.
    rewrite Hpath.
    destruct (includes "modelengine" (toLowerCase filename));
      [apply Math_min_le_l |].
    destruct (test false keywordPattern (toLowerCase filename));
      [apply Math_min_le_l |].
    destruct (includes "items" (toLowerCase filename)
              || includes "weapons" (toLowerCase filename)); apply Qle_refl.
Qed.

Lemma target_resolution_bound_witness :
  (targetResolution
     (smartSettings Demo.webp
        (optimalResOf Demo.webp "assets/minecraft/textures/block/stone.png"))
   <= inject_Z 256 * (3 # 2))%Q.
Proof.
  destruct (target_resolution_bound Demo.webp
              "assets/minecraft/textures/block/stone.png") as [H _].
  - cbn. lia.
  - exact H.
Defined.

(** ** The resize of HD textures *)

(** [Math.round] does not pass an integer bound. *)
Lemma Math_round_le (x : Q) (n : Z) :
  (x <= inject_Z n)%Q -> (Math_round x <= inject_Z n)%Q.
Proof.
  intros Hx. unfold Math_round. rewrite <- Zle_Qle.
  pose proof (Qfloor_le (x + (1 # 2))) as Hfl.
  assert (Hlt : (inject_Z (Qfloor (x + (1 # 2))) < inject_Z (n + 1))%Q).
  { rewrite inject_Z_plus. change (inject_Z 1) with 1%Q. lra. }
  rewrite <- Zlt_Qlt in Hlt. lia.
Qed.

Lemma ratio_pos (w h : Z) :
  0 < w -> 0 < h -> (0 < inject_Z w / inject_Z h)%Q.
Proof.
  intros Hw Hh. apply Qlt_shift_div_l.
  - change 0%Q with (inject_Z 0). rewrite <- Zlt_Qlt. exact Hh.
  - rewrite Qmult_0_l. change 0%Q with (inject_Z 0). rewrite <- Zlt_Qlt. exact Hw.
Qed.

(** X16.  The size computed for an HD texture never exceeds the
    original in either dimension, and for a target that is not negative no
    side exceeds the target rounded up to an integer. *)
Theorem newSize_never_enlarges (target : Q) (w h : Z) :
  0 < w -> 0 < h ->
  (fst (newSize target w h) <= inject_Z w)%Q /\
  (snd (newSize target w h) <= inject_Z h)%Q /\
  forall k, (0 <= target)%Q -> (target <= inject_Z k)%Q ->
    (fst (newSize target w h) <= inject_Z k)%Q /\
    (snd (newSize target w h) <= inject_Z k)%Q.
Proof.
  intros Hw Hh.
  assert (HW : (0 < inject_Z w)%Q)
    by (change 0%Q with (inject_Z 0); rewrite <- Zlt_Qlt; exact Hw).
  assert (HH : (0 < inject_Z h)%Q)
    by (change 0%Q with (inject_Z 0); rewrite <- Zlt_Qlt; exact Hh).
  pose proof (ratio_pos w h Hw Hh) as Hr.
  assert (HWr : (inject_Z h * (inject_Z w / inject_Z h) == inject_Z w)%Q).
  { apply Qmult_div_r. lra. }
  unfold newSize.
  set (W := inject_Z w) in *. set (H := inject_Z h) in *.
  set (r := (W / H)%Q) in *.
  pose proof (Math_min_le_l target W) as HminW1.
  pose proof (Math_min_le_r target W) as HminW2.
  pose proof (Math_min_le_l target H) as HminH1.
  pose proof (Math_min_le_r target H) as HminH2.
  destruct (Qeq_bool r 1) eqn:Hsq.
  - apply Qeq_bool_iff in Hsq. cbn [fst snd].
    assert (HWH : (W == H)%Q) by (rewrite <- HWr, Hsq; lra).
    split; [exact HminW2 |]. split; [lra |].
    intros k _ Hk. split; lra.
  - destruct (h <? w) eqn:Hland; cbn [fst snd].
    + apply Z.ltb_lt in Hland.
      assert (HWH : (H < W)%Q) by (unfold H, W; rewrite <- Zlt_Qlt; exact Hland).
      assert (Hx : (Math_min target W / r <= H)%Q).
      { apply Qle_shift_div_r; [exact Hr |]. lra. }
      split; [exact HminW2 |].
      split; [apply Math_round_le; exact Hx |].
      intros k Ht Hk. split; [lra |].
      apply Math_round_le.
      assert (Hmin0 : (0 <= Math_min target W)%Q).
      { destruct (Math_min_cases target W) as [[_ ->] | [_ ->]]; lra. }
      assert (Hr1 : (1 <= r)%Q).
      { destruct (Qlt_le_dec r 1) as [Hlt | Hge]; [exfalso | exact Hge].
        apply (Qmult_lt_l _ _ H HH) in Hlt. clear - Hlt HWr HWH. clearbody r W H. lra. }
      apply Qle_trans with (Math_min target W); [| lra].
      apply Qle_shift_div_r; [exact Hr |].
      pose proof (Qmult_le_compat_r _ _ _ Hr1 Hmin0) as Hm.
      clear - Hm. clearbody r W. lra.
    + apply Z.ltb_ge in Hland.
      assert (HWH : (W <= H)%Q) by (unfold H, W; rewrite <- Zle_Qle; exact Hland).
      assert (Hx : (Math_min target H * r <= W)%Q).
      { pose proof (Qmult_le_compat_r _ _ r HminH2 (Qlt_le_weak _ _ Hr)) as Hm.
        clear - Hm HWr. clearbody r W H. lra. }
      split; [apply Math_round_le; exact Hx |].
      split; [exact HminH2 |].
      intros k Ht Hk.
      assert (Hmin0 : (0 <= Math_min target H)%Q).
      { destruct (Math_min_cases target H) as [[_ ->] | [_ ->]]; lra. }
      assert (Hr1 : (r <= 1)%Q).
      { destruct (Qlt_le_dec 1 r) as [Hlt | Hge]; [exfalso | exact Hge].
        apply (Qmult_lt_l _ _ H HH) in Hlt. clear - Hlt HWr HWH. clearbody r W H. lra. }
      split; [apply Math_round_le | lra].
      pose proof (Qmult_le_compat_r _ _ _ Hr1 Hmin0) as Hm.
      clear - Hm Hk HminH1. clearbody r H. lra.
Qed.

Lemma newSize_never_enlarges_witness :
  (fst (newSize 256 1024 512) <= inject_Z 1024)%Q /\
  (snd (newSize 256 1024 512) <= inject_Z 512)%Q.
Proof.
  destruct (newSize_never_enlarges 256 1024 512) as (Hw & Hh & _); [lia | lia |].
  split; [exact Hw | exact Hh].
Defined.

Example newSize_landscape : newSize 256 1024 512 = (256%Q, inject_Z 128).
Proof. reflexivity. Qed.

(** ** The request handler *)

Section RequestFacts.

Variable sharp_metadata : bytes -> exn + metadata.
Variable sharp_toBuffer : pipeline -> exn + bytes.
Variable generateAsync : gmap string zip_object -> exn + bytes.
Variable toFixed2 : JsNumber.number -> string.
Variable setHeader : string -> string -> exn + unit.
Variable nodeEnv : option string.

Lemma userMessage_canned (message : string) :
  In (userMessage message)
    [ "Image processing error. Please try again or use smaller resolution.";
      "Processing timeout. Try Potato Mode or smaller file.";
      "Out of memory. Try reducing quality or resolution.";
      "Invalid ZIP file or corrupted textures detected.";
      "Failed to process texture pack" ]%string.
Proof.
  unfold userMessage.
  destruct (includes "sharp" message); [cbn; tauto |].
  destruct (includes "timeout" message); [cbn; tauto |].
  destruct (includes "memory" message); [cbn; tauto |].
  destruct (includes "invalid" message); cbn; tauto.
Qed.

(** X17.  An archive is sent exactly when the request is a POST whose
    form was parsed, that carries a file, whose archive could be loaded and
    for which the pipeline answered with an archive; the status is then
    200.  No other request gets an archive. *)
Theorem archive_only_for_post (req : request) (disposition : string)
    (final : final_stats) (body : bytes) :
  sent (handleRequest sharp_metadata sharp_toBuffer generateAsync toFixed2
          setHeader nodeEnv req) = Zip disposition final body
  <->
  method req = "POST"%string /\
  status (handleRequest sharp_metadata sharp_toBuffer generateAsync toFixed2
            setHeader nodeEnv req) = 200 /\
  exists fields uploadedFile zip_files,
    form req = inr (fields, Some uploadedFile) /\
    archive uploadedFile = inr zip_files /\
    handler sharp_metadata sharp_toBuffer generateAsync toFixed2 setHeader
      fields (originalFilename uploadedFile) zip_files
    = Ok200 disposition final body.
Proof.
  unfold handleRequest.
  destruct (String.eqb (method req) "OPTIONS") eqn:Hopt.
  { apply String.eqb_eq in Hopt. split; [discriminate |].
    intros (Hpost & _). rewrite Hopt in Hpost. discriminate. }
  destruct (String.eqb (method req) "POST") eqn:Hpost; cbn [negb].
  2: { split; [discriminate |]. intros (H & _).
       apply String.eqb_neq in Hpost. contradiction. }
  apply String.eqb_eq in Hpost.
  destruct (form req) as [e | [fields [up |]]] eqn:Hform.
  - split; [discriminate |]. intros (_ & _ & f & u & z & H & _). discriminate.
  - destruct (archive up) as [e | zip_files] eqn:Harch.
    + split; [discriminate |].
      intros (_ & _ & f & u & z & [= <- <-] & H & _). congruence.
    + destruct (handler sharp_metadata sharp_toBuffer generateAsync toFixed2
                  setHeader fields (originalFilename up) zip_files)
        as [cd st b | e] eqn:Hrun; cbn [sent status].
      * split.
        -- intros [= <- <- <-]. split; [exact Hpost |]. split; [reflexivity |].
           exists fields, up, zip_files. repeat split; assumption.
        -- intros (_ & _ & f & u & z & [= <- <-] & Hz & H).
           rewrite Harch in Hz. injection Hz as <-.
           rewrite Hrun in H. injection H as <- <- <-. reflexivity.
      * split; [discriminate |].
        intros (_ & _ & f & u & z & [= <- <-] & Hz & H).
        rewrite Harch in Hz. injection Hz as <-.
        rewrite Hrun in H. discriminate.
  - split; [discriminate |]. intros (_ & _ & f & u & z & H & _). discriminate.
Qed.

(** X18.  Outside development mode no answer carries the text of an
    error: a JSON answer has no [details], and its [error] is one of seven
    fixed messages. *)
Theorem production_hides_errors (req : request) (error : string)
    (details : option exn) (suggestion : option string) :
  nodeEnv <> Some "development"%string ->
  sent (handleRequest sharp_metadata sharp_toBuffer generateAsync toFixed2
          setHeader nodeEnv req) = Json error details suggestion ->
  details = None /\
  In error
    [ "Method not allowed"; "No file uploaded";
      "Image processing error. Please try again or use smaller resolution.";
      "Processing timeout. Try Potato Mode or smaller file.";
      "Out of memory. Try reducing quality or resolution.";
      "Invalid ZIP file or corrupted textures detected.";
      "Failed to process texture pack" ]%string.
Proof.
  intros Henv.
  assert (Hfail : forall e,
            sent (fail500 nodeEnv e) = Json error details suggestion ->
            details = None /\
            In error
              [ "Method not allowed"; "No file uploaded";
                "Image processing error. Please try again or use smaller resolution.";
                "Processing timeout. Try Potato Mode or smaller file.";
                "Out of memory. Try reducing quality or resolution.";
                "Invalid ZIP file or corrupted textures detected.";
                "Failed to process texture pack" ]%string).
  { intros e. unfold fail500. cbn [sent]. intros [= <- <- _]. split.
    - destruct nodeEnv as [env |]; [| reflexivity].
      destruct (String.eqb env "development") eqn:E; [| reflexivity].
      apply String.eqb_eq in E. subst env. contradiction.
    - right. right. apply userMessage_canned. }
  unfold handleRequest.
  destruct (String.eqb (method req) "OPTIONS"); [discriminate |].
  destruct (negb (String.eqb (method req) "POST")).
  { cbn [sent]. intros [= <- <- _]. split; [reflexivity | left; reflexivity]. }
  destruct (form req) as [e | [fields [up |]]]; [apply Hfail | |].
  - destruct (archive up) as [e | zip_files]; [apply Hfail |].
    destruct (handler sharp_metadata sharp_toBuffer generateAsync toFixed2
                setHeader fields (originalFilename up) zip_files) as [cd st b | e];
      [discriminate | apply Hfail].
  - cbn [sent]. intros [= <- <- _].
    split; [reflexivity | right; left; reflexivity].
Qed.

(** X19.  A POST with a parsed form, a file and a loadable archive all
    of whose contents can be read is answered with status 200 and an
    archive whatever the entries hold, as long as the serialization of the
    output does not fail and the [Content-Disposition] header is accepted:
    no image, readable or not, can turn the answer into an error. *)
Theorem post_succeeds (req : request) (fields : form_fields)
    (uploadedFile : uploaded_file) (loaded : loaded_entries)
    (zip_files : zip_entries) :
  method req = "POST"%string ->
  form req = inr (fields, Some uploadedFile) ->
  archive uploadedFile = inr loaded ->
  decodeEntries loaded = inr zip_files ->
  (forall s,
     processEntries sharp_metadata sharp_toBuffer fields zip_files state0
       = (inr tt, s) ->
     exists optimizedBuffer,
       generateAsync (optimizedZip s) = inr optimizedBuffer /\
       setHeader "Content-Disposition"
         (contentDisposition
            (outputName (originalFilename uploadedFile)
               (finalSizeMB (finalStats toFixed2 (stats s)
                               (blen optimizedBuffer)))))
       = inr tt) ->
  status (handleRequest sharp_metadata sharp_toBuffer generateAsync toFixed2
            setHeader nodeEnv req) = 200 /\
  exists disposition final body,
    sent (handleRequest sharp_metadata sharp_toBuffer generateAsync toFixed2
            setHeader nodeEnv req) = Zip disposition final body /\
    originalSize (loop_stats final) = total (fileSizes zip_files).
Proof.
  intros Hpost Hform Harch Hdec Hout.
  unfold handleRequest. rewrite Hpost, Hform, Harch.
  cbn [String.eqb Ascii.eqb Bool.eqb negb].
  unfold handler.
  rewrite (decodeEntries_inr _ _ Hdec), processLoadedEntries_loadedOf.
  destruct (processEntries_sizes sharp_metadata sharp_toBuffer fields
              zip_files state0) as (s & Hrun & Ho & _).
  rewrite Hrun. destruct (Hout s Hrun) as (b & -> & Hheader).
  cbv zeta. rewrite Hheader.
  cbn [status sent]. split; [reflexivity |].
  do 3 eexists. split; [reflexivity |].
  cbn [finalStats loop_stats]. rewrite Ho. reflexivity.
Qed.

End RequestFacts.

(** ** The further theorems on concrete requests *)

Lemma unique_names_content_witness :
  exists s,
    Demo.run Demo.webp Demo.pack = (inr tt, s) /\
    optimizedZip s !! "pack.png"%string = Some (File Demo.icon) /\
    optimizedZip s !! "textures/"%string = Some Dir.
Proof.
  destruct (unique_names_content Demo.metadata_of Demo.toBuffer Demo.webp Demo.pack)
    as (s & Hrun & _ & Hcopy & Hdir).
  - apply (bool_decide_unpack _). vm_compute. exact I.
  - exists s. split; [exact Hrun |]. split.
    + apply Hcopy; [left; reflexivity | discriminate].
    + apply (Hdir "textures/"%string). right. left. reflexivity.
Defined.

Lemma savedPercent_without_bytes_witness :
  exists disposition final body,
    handler Demo.metadata_of Demo.toBuffer Demo.generateAsync Demo.toFixed2
      Demo.setHeader default_fields (Some "folders.zip"%string)
      (loadedOf [("textures/"%string, Dir)])
    = Ok200 disposition final body /\
    savedPercent final = Demo.toFixed2 JsNumber.NegInfinity.
Proof.
  assert (Hrun :
    handler Demo.metadata_of Demo.toBuffer Demo.generateAsync Demo.toFixed2
      Demo.setHeader default_fields (Some "folders.zip"%string)
      (loadedOf [("textures/"%string, Dir)])
    = Ok200 (contentDisposition "folders-optimized-0.00mb.zip")
        (finalStats Demo.toFixed2 stats0 1) [Byte.x50])
    by (vm_compute; reflexivity).
  destruct (savedPercent_without_bytes Demo.metadata_of Demo.toBuffer
              Demo.generateAsync Demo.toFixed2 default_fields Demo.setHeader
              (Some "folders.zip"%string) [("textures/"%string, Dir)]
              _ _ _ Hrun eq_refl) as (_ & _ & H); [discriminate |].
  do 3 eexists. split; [exact Hrun | exact H].
Defined.

Example savedPercent_of_folders :
  savedPercent (finalStats Demo.toFixed2 stats0 1) = "-Infinity"%string.
Proof. reflexivity. Qed.

(** The percentage is rounded as a double at the division and again at
    the multiplication: 41 / 160 * 100 is 25.624999999999996, not 25.625. *)
Example savedPercent_of_doubles :
  savedPercent (finalStats Demo.toFixed2 (add_originalSize 160 stats0) 119)
  = "25.62"%string.
Proof. vm_compute. reflexivity. Qed.

(** An entry whose content cannot be read ends the request, also when the
    entries before it were handled. *)
Example handler_damaged_entry :
  handler Demo.metadata_of Demo.toBuffer Demo.generateAsync Demo.toFixed2
    Demo.setHeader Demo.webp (Some "pack.zip"%string)
    [ ("pack.png"%string, LoadedFile (inr Demo.icon));
      ("textures/mob.png"%string, LoadedFile (inl "Corrupted zip: CRC32 mismatch"%string)) ]
  = Error500 "Corrupted zip: CRC32 mismatch".
Proof. vm_compute. reflexivity. Qed.

(** An upload name with a line feed is refused as a header value. *)
Example handler_refused_header :
  handler Demo.metadata_of Demo.toBuffer Demo.generateAsync Demo.toFixed2
    Demo.setHeader Demo.webp
    (Some (String (ascii_of_nat 10) "pack.zip")) (loadedOf Demo.pack)
  = Error500 "Invalid character in header content [Content-Disposition]".
Proof. vm_compute. reflexivity. Qed.

Lemma production_hides_errors_witness :
  sent (handleRequest Demo.metadata_of Demo.toBuffer Demo.generateAsync
          Demo.toFixed2 Demo.setHeader (Some "production"%string)
          {| method := "POST";
             form := inl "sharp: unsupported image format in /tmp/upload_1"%string |})
  = Json "Image processing error. Please try again or use smaller resolution."
         None (Some "Try: Potato Mode + 256x resolution + Quality 75%"%string).
Proof.
  destruct (production_hides_errors Demo.metadata_of Demo.toBuffer
              Demo.generateAsync Demo.toFixed2 Demo.setHeader
              (Some "production"%string)
              {| method := "POST";
                 form := inl "sharp: unsupported image format in /tmp/upload_1"%string |}
              "Image processing error. Please try again or use smaller resolution."
              None (Some "Try: Potato Mode + 256x resolution + Quality 75%"%string))
    as (_ & _); [discriminate | reflexivity |].
  reflexivity.
Defined.

Lemma post_succeeds_witness :
  status (handleRequest Demo.metadata_of Demo.toBuffer Demo.generateAsync
            Demo.toFixed2 Demo.setHeader None
            {| method := "POST";
               form := inr (Demo.webp,
                            Some {| originalFilename := Some "pack.zip"%string;
                                    archive := inr (loadedOf Demo.pack) |}) |})
  = 200.
Proof.
  destruct (post_succeeds Demo.metadata_of Demo.toBuffer Demo.generateAsync
              Demo.toFixed2 Demo.setHeader None
              {| method := "POST";
                 form := inr (Demo.webp,
                              Some {| originalFilename := Some "pack.zip"%string;
                                      archive := inr (loadedOf Demo.pack) |}) |}
              Demo.webp
              {| originalFilename := Some "pack.zip"%string;
                 archive := inr (loadedOf Demo.pack) |}
              (loadedOf Demo.pack) Demo.pack eq_refl eq_refl eq_refl eq_refl)
    as (H & _).
  - intros s Hrun. exists (replicate (size (optimizedZip s)) Init.Byte.x50).
    split; [reflexivity |].
    vm_compute in Hrun. injection Hrun as <-. vm_compute. reflexivity.
  - exact H.
Defined.

(** Other methods than OPTIONS and POST are refused. *)
Example get_refused :
  handleRequest Demo.metadata_of Demo.toBuffer Demo.generateAsync Demo.toFixed2
    Demo.setHeader None {| method := "GET"; form := inl "unused"%string |}
  = {| status := 405; sent := Json "Method not allowed" None None |}.
Proof. reflexivity. Qed.

(** ** Names that are not renamed *)

(** X20.  Only a name that ends in lower-case ".png" is ever renamed:
    every other file, also an image that is converted to another format
    (a ".jpg", a ".jpeg", a ".PNG"), is stored under the name it had. *)
Theorem only_png_renamed (sharp_metadata : bytes -> exn + metadata)
    (sharp_toBuffer : pipeline -> exn + bytes) (fields : form_fields)
    (filename : string) (fileData : bytes) :
  endsWith ".png" filename = false ->
  fst (entryOutput sharp_metadata sharp_toBuffer fields filename fileData)
    = filename /\
  forall s,
    exists written,
      optimizedZip
        (snd (processEntry sharp_metadata sharp_toBuffer fields
                (filename, File fileData) s)) !! filename
      = Some (File written).
Proof.
  intros Hpng.
  assert (Hname :
    fst (entryOutput sharp_metadata sharp_toBuffer fields filename fileData)
    = filename).
  { rewrite entryOutput_name. unfold newFilename. rewrite Hpng, andb_false_r.
    destruct (classify filename), (sharp_metadata fileData); reflexivity. }
  split; [exact Hname |].
  intros s.
  destruct (processEntry_file sharp_metadata sharp_toBuffer fields
              filename fileData s) as (s' & Hrun & Hzip & _).
  rewrite Hrun. cbn [snd]. rewrite Hzip, Hname.
  eexists. apply lookup_insert_eq.
Qed.

Lemma only_png_renamed_witness :
  fst (entryOutput Demo.metadata_of Demo.toBuffer Demo.webp
         "textures/MOB.PNG" Demo.texture) = "textures/MOB.PNG"%string /\
  snd (entryOutput Demo.metadata_of Demo.toBuffer Demo.webp
         "textures/MOB.PNG" Demo.texture) = [Byte.x40; Byte.x40].
Proof.
  destruct (only_png_renamed Demo.metadata_of Demo.toBuffer Demo.webp
              "textures/MOB.PNG" Demo.texture eq_refl) as (Hname & _).
  split; [exact Hname | reflexivity].
Defined.
